(** * ResultSet: the merging row cursor of tuplex/core/src/physical/ResultSet.cc

    A shallow embedding of [tuplex::ResultSet].  The cursor walks two queues,
    a queue of partitions (serialized rows produced by the compiled path) and
    a queue of tagged Python objects (rows produced by the interpreter path),
    and merges them into one stream of rows.

    Conventions of the embedding.
    - The counters of the class are unsigned 64-bit integers ([size_t], the
      type of the row numbers in [_pyobjects] and of the result of
      [rowCount]); they are integers in [Z] and every addition is reduced
      modulo [2^64] by [size_t].
    - The collaborators that live outside ResultSet.cc (the row codec
      [Row::fromMemory], [Row::serializedLength], [python::pythonToRow], the
      default row [Row()], the schema type) are the fields of the class
      [Collaborators]; every definition and theorem is generic in them.
    - A [Partition*] is a record carrying its address, which is its identity,
      and the members the cursor calls: [getNumRows], [capacity] and the
      buffer handed out by [lock].
    - Calls that act on collaborators ([lock], [unlock], [invalidate],
      [python::lockGIL], [python::unlockGIL]) are recorded as events; every
      operation returns the events of the call in program order.
    - [assert] and the [#ifndef NDEBUG] logging are those of a release build
      (NDEBUG defined): they expand to nothing. *)

From Stdlib Require Import ZArith List Bool Lia.
Import ListNotations.
Open Scope Z_scope.

(** ** Machine integers *)

(** Reduction of an integer to the range of [size_t] (64 bits). *)
Definition size_t (x : Z) : Z := x mod 2 ^ 64.

(** [std::numeric_limits<int64_t>::max()] *)
Definition INT64_MAX : Z := 2 ^ 63 - 1.

(** The values an [int64_t] argument can take. *)
Definition int64_range (x : Z) : Prop := - 2 ^ 63 <= x < 2 ^ 63.

(** ** Collaborators *)

Class Collaborators : Type := {
  Schema : Type;
  Row : Type;
  PyObject : Type;
  (** [Row()] *)
  Row_empty : Row;
  (** [Row::fromMemory(schema, ptr, size)]: [ptr] is given as the bytes of the
      buffer from that address on. *)
  fromMemory : Schema -> list Byte.byte -> Z -> Row;
  (** [row.serializedLength()] *)
  serializedLength : Row -> Z;
  (** [python::pythonToRow(obj)] *)
  pythonToRow : PyObject -> Row
}.

(** The object behind a [Partition*]. *)
Record Partition : Type := {
  addr : Z;
  getNumRows : Z;
  capacity : Z;
  memory : list Byte.byte
}.

(** Effects on the collaborators. *)
Inductive Event : Type :=
| LockGIL
| UnlockGIL
| PartitionLock (a : Z)
| PartitionUnlock (a : Z)
| PartitionInvalidate (a : Z).

Definition Event_eq_dec (x y : Event) : {x = y} + {x <> y}.
Proof. decide equality; apply Z.eq_dec. Defined.

Section Cursor.

Context {C : Collaborators}.

(** ** The cursor *)

Record ResultSet : Type := {
  _partitions : list Partition;
  _exceptions : list Partition;
  _pyobjects : list (Z * PyObject);
  _curRowCounter : Z;
  _byteCounter : Z;
  _rowsRetrieved : Z;
  _totalRowCounter : Z;
  _maxRows : Z;
  _schema : Schema
}.

(** [ResultSet::ResultSet(schema, partitions, exceptions, pyobjects, maxRows)] *)
Definition mkResultSet (schema : Schema) (partitions exceptions : list Partition)
    (pyobjects : list (Z * PyObject)) (maxRows : Z) : ResultSet :=
  {| _partitions := partitions;
     _exceptions := exceptions;
     _pyobjects := pyobjects;
     _curRowCounter := 0;
     _byteCounter := 0;
     _rowsRetrieved := 0;
     _totalRowCounter := 0;
     _maxRows := if maxRows <? 0 then INT64_MAX else maxRows;
     _schema := schema |}.

(** [ResultSet::clear] *)
Definition clear (s : ResultSet) : ResultSet * list Event :=
  ({| _partitions := [];
      _exceptions := _exceptions s;
      _pyobjects := _pyobjects s;
      _curRowCounter := 0;
      _byteCounter := 0;
      _rowsRetrieved := 0;
      _totalRowCounter := _totalRowCounter s;
      _maxRows := 0;
      _schema := _schema s |},
   map (fun p => PartitionInvalidate (addr p)) (_partitions s)
     ++ map (fun p => PartitionInvalidate (addr p)) (_exceptions s)).

(** [ResultSet::hasNextRow] *)
Definition hasNextRow (s : ResultSet) : bool :=
  if _rowsRetrieved s >=? _maxRows s then false
  else
    match _partitions s, _pyobjects s with
    | [], [] => false
    | [], _ :: _ => true
    | front :: _, [] => _curRowCounter s <? getNumRows front
    | _ :: _, _ :: _ => true
    end.

(** [ResultSet::hasNextPartition] *)
Definition hasNextPartition (s : ResultSet) : bool :=
  if _rowsRetrieved s >=? _maxRows s then false
  else
    match _partitions s with
    | [] => false
    | front :: _ => _curRowCounter s <? getNumRows front
    end.

(** [ResultSet::getNextPartition]; [None] is [nullptr]. *)
Definition getNextPartition (s : ResultSet) : option Partition * ResultSet :=
  match _partitions s with
  | [] => (None, s)
  | first :: rest =>
      (Some first,
       {| _partitions := rest;
          _exceptions := _exceptions s;
          _pyobjects := _pyobjects s;
          _curRowCounter := 0;
          _byteCounter := 0;
          _rowsRetrieved := size_t (_rowsRetrieved s + getNumRows first);
          _totalRowCounter := _totalRowCounter s;
          _maxRows := _maxRows s;
          _schema := _schema s |})
  end.

(** [ResultSet::removeFirstPartition].  The method is only called on a
    non-empty queue (it asserts so); on an empty queue the embedding leaves
    the cursor as it is. *)
Definition removeFirstPartition (s : ResultSet) : ResultSet * list Event :=
  match _partitions s with
  | [] => (s, [])
  | first :: rest =>
      ({| _partitions := rest;
          _exceptions := _exceptions s;
          _pyobjects := _pyobjects s;
          _curRowCounter := 0;
          _byteCounter := 0;
          _rowsRetrieved := _rowsRetrieved s;
          _totalRowCounter := _totalRowCounter s;
          _maxRows := _maxRows s;
          _schema := _schema s |},
       [PartitionInvalidate (addr first)])
  end.

(** The second half of [ResultSet::getNextRow] (from "check whether entry is
    available" on): decode one row of the front partition. *)
Definition nextPartitionRow (s : ResultSet) : Row * ResultSet * list Event :=
  match _partitions s with
  | [] => (Row_empty, s, [])
  | first :: _ =>
      let row := fromMemory (_schema s)
                   (skipn (Z.to_nat (_byteCounter s)) (memory first))
                   (size_t (capacity first - _byteCounter s)) in
      let s1 := {| _partitions := _partitions s;
                   _exceptions := _exceptions s;
                   _pyobjects := _pyobjects s;
                   _curRowCounter := size_t (_curRowCounter s + 1);
                   _byteCounter := size_t (_byteCounter s + serializedLength row);
                   _rowsRetrieved := size_t (_rowsRetrieved s + 1);
                   _totalRowCounter := size_t (_totalRowCounter s + 1);
                   _maxRows := _maxRows s;
                   _schema := _schema s |} in
      let io := [PartitionLock (addr first); PartitionUnlock (addr first)] in
      if _curRowCounter s1 =? getNumRows first
      then let (s2, ev) := removeFirstPartition s1 in (row, s2, io ++ ev)
      else (row, s1, io)
  end.

(** [_partitions.empty()] *)
Definition empty {A : Type} (l : list A) : bool :=
  match l with [] => true | _ :: _ => false end.

(** [ResultSet::getNextRow] *)
Definition getNextRow (s : ResultSet) : Row * ResultSet * list Event :=
  match _pyobjects s with
  | (row_number, obj) :: rest =>
      if empty (_partitions s) || (row_number <=? _totalRowCounter s)
      then
        let row := pythonToRow obj in
        let total :=
          match rest with
          | [] => size_t (_totalRowCounter s + 1)
          | (next_row_number, _) :: _ =>
              if negb (next_row_number =? row_number)
              then size_t (_totalRowCounter s + 1)
              else _totalRowCounter s
          end in
        (row,
         {| _partitions := _partitions s;
            _exceptions := _exceptions s;
            _pyobjects := rest;
            _curRowCounter := _curRowCounter s;
            _byteCounter := _byteCounter s;
            _rowsRetrieved := size_t (_rowsRetrieved s + 1);
            _totalRowCounter := total;
            _maxRows := _maxRows s;
            _schema := _schema s |},
         [LockGIL; UnlockGIL])
      else nextPartitionRow s
  | [] => nextPartitionRow s
  end.

(** [ResultSet::rowCount] *)
Definition rowCount (s : ResultSet) : Z :=
  size_t (fold_left (fun count partition => size_t (count + getNumRows partition))
            (_partitions s) 0
          + Z.of_nat (length (_pyobjects s))).

(** ** Reading the result of a call *)

Definition row_of (r : Row * ResultSet * list Event) : Row := fst (fst r).
Definition state_of (r : Row * ResultSet * list Event) : ResultSet := snd (fst r).
Definition events_of (r : Row * ResultSet * list Event) : list Event := snd r.

(** ** Consumers *)

(** [n] calls of [getNextRow] in a row: the rows returned, the cursor left
    behind and the events of all calls. *)
Fixpoint pull (n : nat) (s : ResultSet) : list Row * ResultSet * list Event :=
  match n with
  | O => ([], s, [])
  | S n' =>
      let r := getNextRow s in
      let rest := pull n' (state_of r) in
      (row_of r :: fst (fst rest), snd (fst rest), events_of r ++ snd rest)
  end.

Definition rows_of (r : list Row * ResultSet * list Event) : list Row := fst (fst r).
Definition cursor_of (r : list Row * ResultSet * list Event) : ResultSet := snd (fst r).
Definition trace_of (r : list Row * ResultSet * list Event) : list Event := snd r.

(** The loop [while (rs.hasNextRow()) rows.push_back(rs.getNextRow());] run
    for at most [fuel] iterations. *)
Fixpoint drain (fuel : nat) (s : ResultSet) : list Row * ResultSet :=
  match fuel with
  | O => ([], s)
  | S fuel' =>
      if hasNextRow s
      then let r := getNextRow s in
           let rest := drain fuel' (state_of r) in
           (row_of r :: fst rest, snd rest)
      else ([], s)
  end.

(** The public operations, as a consumer may issue them. *)
Inductive Op : Type :=
| OpGetNextRow
| OpGetNextPartition
| OpHasNextRow
| OpHasNextPartition
| OpRowCount
| OpClear.

Definition step (o : Op) (s : ResultSet) : ResultSet * list Event :=
  match o with
  | OpGetNextRow => let r := getNextRow s in (state_of r, events_of r)
  | OpGetNextPartition => (snd (getNextPartition s), [])
  | OpHasNextRow => (s, [])
  | OpHasNextPartition => (s, [])
  | OpRowCount => (s, [])
  | OpClear => clear s
  end.

(** A sequence of operations: the cursor reached and the events so far. *)
Fixpoint run (ops : list Op) (s : ResultSet) : ResultSet * list Event :=
  match ops with
  | [] => (s, [])
  | o :: ops' =>
      let (s1, ev) := step o s in
      let (s2, ev') := run ops' s1 in
      (s2, ev ++ ev')
  end.

(** A consumer that pulls a row only after [hasNextRow] answered [true] and
    does not use the bulk path [getNextPartition]. *)
Fixpoint checksHasNextRow (ops : list Op) (s : ResultSet) : bool :=
  match ops with
  | [] => true
  | o :: ops' =>
      match o with
      | OpGetNextRow => hasNextRow s
      | OpGetNextPartition => false
      | _ => true
      end && checksHasNextRow ops' (fst (step o s))
  end.

(** Every one of [n] consecutive [getNextRow] calls finds a row to return:
    the two queues are not both empty when it is made. *)
Fixpoint successfulPulls (n : nat) (s : ResultSet) : bool :=
  match n with
  | O => true
  | S n' =>
      negb (empty (_partitions s) && empty (_pyobjects s))
      && successfulPulls n' (state_of (getNextRow s))
  end.

(** ** Rows stored in a partition *)

(** The rows the codec reads from a buffer: [n] rows, the first at byte
    offset [off], each one starting where the previous one ended. *)
Fixpoint decodeRows (schema : Schema) (p : Partition) (n : nat) (off : Z) : list Row :=
  match n with
  | O => []
  | S n' =>
      let row := fromMemory schema (skipn (Z.to_nat off) (memory p))
                   (size_t (capacity p - off)) in
      row :: decodeRows schema p n' (size_t (off + serializedLength row))
  end.

(** The rows of a partition, in stored order. *)
Definition storedRows (schema : Schema) (p : Partition) : list Row :=
  decodeRows schema p (Z.to_nat (getNumRows p)) 0.

(** A partition that holds at least one row. *)
Definition holdsRows (p : Partition) : Prop := 0 < getNumRows p < 2 ^ 64.

(** The rows still to come from the partition queue: what is left of the
    front partition from the current offsets on, then the rows of the
    partitions behind it. *)
Definition pendingRows (s : ResultSet) : list Row :=
  match _partitions s with
  | [] => []
  | p :: rest =>
      decodeRows (_schema s) p
        (Z.to_nat (getNumRows p - _curRowCounter s)) (_byteCounter s)
      ++ concat (map (storedRows (_schema s)) rest)
  end.

(** A cursor that reads partitions only: no tagged row is queued, every
    queued partition holds rows and the row offset lies inside the front
    partition. *)
Definition streaming (s : ResultSet) : Prop :=
  _pyobjects s = []
  /\ Forall holdsRows (_partitions s)
  /\ match _partitions s with
     | [] => True
     | p :: _ => 0 <= _curRowCounter s < getNumRows p
     end.

(** Two cursors that agree on the partition side. *)
Definition samePartitionSide (s s' : ResultSet) : Prop :=
  _partitions s = _partitions s'
  /\ _curRowCounter s = _curRowCounter s'
  /\ _byteCounter s = _byteCounter s'
  /\ _schema s = _schema s'.

(** ** Spec-side notions *)


(** The tagged row at the front of [q], if any, carries the index [i]. *)
Definition nextCarries (i : Z) (q : list (Z * PyObject)) : bool :=
  match q with
  | [] => false
  | (j, _) :: _ => j =? i
  end.

(** Rows of the partition at position [i] of the queue that the cursor has
    not returned yet: the row offset counts against the front partition
    only. *)
Definition unreadRows (s : ResultSet) (i : nat) (p : Partition) : Z :=
  match i with
  | O => getNumRows p - _curRowCounter s
  | S _ => getNumRows p
  end.

(** Some partition of the queue still has unread rows. *)
Definition somePartitionUnread (s : ResultSet) : Prop :=
  exists i p, nth_error (_partitions s) i = Some p /\ 0 < unreadRows s i p.

(** The front partition still has unread rows. *)
Definition frontPartitionUnread (s : ResultSet) : Prop :=
  exists p rest, _partitions s = p :: rest /\ _curRowCounter s < getNumRows p.

End Cursor.

(** ** Events of a run *)

(** How many times the partition at address [a] was invalidated. *)
Definition invalidations (a : Z) (tr : list Event) : nat :=
  count_occ Event_eq_dec tr (PartitionInvalidate a).






(** ** A concrete codec for the examples

    Rows are one byte long: the codec reads the byte at the given address.
    A Python object is the row it converts to. *)
Definition OneByteRows : Collaborators :=
  {| Schema := unit;
     Row := list Byte.byte;
     PyObject := list Byte.byte;
     Row_empty := [];
     fromMemory := fun _ buf _ => firstn 1 buf;
     serializedLength := fun r => Z.of_nat (length r);
     pythonToRow := fun o => o |}.

(** Two rows, [A] and [B]. *)
Definition partAB : Partition :=
  {| addr := 4096; getNumRows := 2; capacity := 2;
     memory := [Byte.x41; Byte.x42] |}.

(** One row, [C]. *)
Definition partC : Partition :=
  {| addr := 8192; getNumRows := 1; capacity := 1; memory := [Byte.x43] |}.

(** No row; the buffer holds a stale byte. *)
Definition partNone : Partition :=
  {| addr := 12288; getNumRows := 0; capacity := 1; memory := [Byte.x5a] |}.

(** An exception partition. *)
Definition partExc : Partition :=
  {| addr := 16384; getNumRows := 1; capacity := 1; memory := [Byte.x45] |}.

Definition cursor (partitions exceptions : list Partition)
    (pyobjects : list (Z * list Byte.byte)) (maxRows : Z) : @ResultSet OneByteRows :=
  @mkResultSet OneByteRows tt partitions exceptions pyobjects maxRows.

(** ** Notions for the merge as a whole and for the bulk path *)

(** [l] is [l1] and [l2] shuffled together, each keeping its own order. *)
Inductive Interleave {A : Type} : list A -> list A -> list A -> Prop :=
| Interleave_nil : Interleave [] [] []
| Interleave_left x l1 l2 l :
    Interleave l1 l2 l -> Interleave (x :: l1) l2 (x :: l)
| Interleave_right x l1 l2 l :
    Interleave l1 l2 l -> Interleave l1 (x :: l2) (x :: l).

Section MergeNotions.

Context {C : Collaborators}.

(** The rows the queued tagged objects convert to, in queue order. *)
Definition taggedRows (s : ResultSet) : list Row :=
  map (fun t => pythonToRow (snd t)) (_pyobjects s).

(** Every queued partition holds rows and the row offset lies inside the
    front partition ([streaming] without its condition on the tagged-row
    queue). *)
Definition partitionsReady (s : ResultSet) : Prop :=
  Forall holdsRows (_partitions s)
  /\ match _partitions s with
     | [] => True
     | p :: _ => 0 <= _curRowCounter s < getNumRows p
     end.

(** The indices of the tagged rows of [q] are at least [lo], strictly
    increasing and below the largest [size_t]. *)
Fixpoint ascending (lo : Z) (q : list (Z * PyObject)) : Prop :=
  match q with
  | [] => True
  | (i, _) :: q' => lo <= i /\ i < 2 ^ 64 - 1 /\ ascending (i + 1) q'
  end.

(** [n] calls of [getNextPartition] in a row: the pointers returned and the
    cursor left behind. *)
Fixpoint pullPartitions (n : nat) (s : ResultSet) : list (option Partition) * ResultSet :=
  match n with
  | O => ([], s)
  | S n' =>
      let r := getNextPartition s in
      let rest := pullPartitions n' (snd r) in
      (fst r :: fst rest, snd rest)
  end.

(** The sum of the row counts of [ps]. *)
Definition rowsIn (ps : list Partition) : Z :=
  fold_right (fun p acc => getNumRows p + acc) 0 ps.

(** How many of the operations are calls of [clear]. *)
Definition clears (ops : list Op) : nat :=
  length (filter (fun o => match o with OpClear => true | _ => false end) ops).

End MergeNotions.

(** * Properties *)

Section Properties.

Context {C : Collaborators}.

Ltac cursor_unfold :=
  unfold getNextRow, nextPartitionRow, removeFirstPartition,
    row_of, state_of, events_of, empty in *.

(** ** Arithmetic of [size_t] *)

Lemma size_t_small (x : Z) : 0 <= x < 2 ^ 64 -> size_t x = x.
Proof. intros H. unfold size_t. apply Z.mod_small. exact H. Qed.

Lemma size_t_range (x : Z) : 0 <= size_t x < 2 ^ 64.
Proof. unfold size_t. apply Z.mod_pos_bound. reflexivity. Qed.

Lemma size_t_le (x : Z) : 0 <= x -> size_t x <= x.
Proof. intros H. unfold size_t. apply Z.mod_le; [exact H | reflexivity]. Qed.

(** ** The two branches of [getNextRow] *)

Lemma getNextRow_tagged (s : ResultSet) i obj rest :
  _pyobjects s = (i, obj) :: rest ->
  _partitions s = [] \/ i <= _totalRowCounter s ->
  getNextRow s =
    (pythonToRow obj,
     {| _partitions := _partitions s;
        _exceptions := _exceptions s;
        _pyobjects := rest;
        _curRowCounter := _curRowCounter s;
        _byteCounter := _byteCounter s;
        _rowsRetrieved := size_t (_rowsRetrieved s + 1);
        _totalRowCounter :=
          match rest with
          | [] => size_t (_totalRowCounter s + 1)
          | (j, _) :: _ =>
              if negb (j =? i) then size_t (_totalRowCounter s + 1)
              else _totalRowCounter s
          end;
        _maxRows := _maxRows s;
        _schema := _schema s |},
     [LockGIL; UnlockGIL]).
Proof.
  intros Hq Hdue. unfold getNextRow. rewrite Hq.
  assert (Hc : empty (_partitions s) || (i <=? _totalRowCounter s) = true).
  { destruct Hdue as [Hp | Hle].
    - rewrite Hp. reflexivity.
    - apply orb_true_iff. right. apply Z.leb_le. exact Hle. }
  rewrite Hc. reflexivity.
Qed.

Lemma getNextRow_not_due (s : ResultSet) i obj rest p ps :
  _pyobjects s = (i, obj) :: rest ->
  _partitions s = p :: ps ->
  _totalRowCounter s < i ->
  getNextRow s = nextPartitionRow s.
Proof.
  intros Hq Hp Hlt. unfold getNextRow. rewrite Hq, Hp. simpl.
  destruct (Z.leb_spec i (_totalRowCounter s)); [lia | reflexivity].
Qed.

Lemma getNextRow_no_tagged (s : ResultSet) :
  _pyobjects s = [] -> getNextRow s = nextPartitionRow s.
Proof. intros Hq. unfold getNextRow. rewrite Hq. reflexivity. Qed.

Lemma nextPartitionRow_pyobjects (s : ResultSet) :
  _pyobjects (state_of (nextPartitionRow s)) = _pyobjects s.
Proof.
  cursor_unfold. destruct (_partitions s) as [|p ps] eqn:Hp; simpl; [reflexivity|].
  match goal with |- context [if ?b then _ else _] => destruct b end;
    simpl; reflexivity.
Qed.

(** ** Exhausted queues *)

Lemma getNextRow_both_queues_closed (s : ResultSet) :
  _partitions s = [] -> _pyobjects s = [] ->
  getNextRow s = (Row_empty, s, []).
Proof.
  intros Hp Hq. rewrite (getNextRow_no_tagged s Hq).
  unfold nextPartitionRow. rewrite Hp. reflexivity.
Qed.

(** C10.  When the partition queue and the tagged-row queue are both empty,
    [getNextRow] returns the empty row [Row()], leaves every field of the
    cursor as it was (no counter moves) and touches no collaborator. *)
Theorem getNextRow_both_queues_empty (s : ResultSet) :
  _partitions s = [] -> _pyobjects s = [] ->
  getNextRow s = (Row_empty, s, []).
Proof.
  intros Hp Hq. unfold getNextRow. rewrite Hq.
  unfold nextPartitionRow. rewrite Hp. reflexivity.
Qed.

(** ** Emission of a tagged row *)

(** C9.  When [getNextRow] emits the front tagged row (the partition queue is
    empty or the row's index is at most [_totalRowCounter]), the partition
    queue, the row offset and the byte offset of the cursor are unchanged,
    and so are the exception list, the budget and the schema; the call pops
    the tagged-row queue, adds one to [_rowsRetrieved], leaves
    [_totalRowCounter] alone or adds one to it, and locks no partition. *)
Theorem tagged_emission_frame (s : ResultSet) i obj rest :
  _pyobjects s = (i, obj) :: rest ->
  _partitions s = [] \/ i <= _totalRowCounter s ->
  let r := getNextRow s in
  row_of r = pythonToRow obj
  /\ _partitions (state_of r) = _partitions s
  /\ _curRowCounter (state_of r) = _curRowCounter s
  /\ _byteCounter (state_of r) = _byteCounter s
  /\ _exceptions (state_of r) = _exceptions s
  /\ _maxRows (state_of r) = _maxRows s
  /\ _schema (state_of r) = _schema s
  /\ _pyobjects (state_of r) = rest
  /\ _rowsRetrieved (state_of r) = size_t (_rowsRetrieved s + 1)
  /\ (_totalRowCounter (state_of r) = _totalRowCounter s
      \/ _totalRowCounter (state_of r) = size_t (_totalRowCounter s + 1))
  /\ events_of r = [LockGIL; UnlockGIL].
Proof.
  intros Hq Hdue r. subst r. rewrite (getNextRow_tagged s i obj rest Hq Hdue).
  unfold row_of, state_of, events_of. simpl.
  repeat (split; [reflexivity|]). split; [|reflexivity].
  destruct rest as [|[j o] rest']; [right; reflexivity|].
  destruct (negb (j =? i)); [right | left]; reflexivity.
Qed.

(** The logical position after a tagged row was emitted. *)
Lemma tagged_emission_total (s : ResultSet) i obj rest :
  _pyobjects s = (i, obj) :: rest ->
  _partitions s = [] \/ i <= _totalRowCounter s ->
  _totalRowCounter (state_of (getNextRow s)) =
    if nextCarries i rest then _totalRowCounter s
    else size_t (_totalRowCounter s + 1).
Proof.
  intros Hq Hdue. rewrite (getNextRow_tagged s i obj rest Hq Hdue).
  unfold state_of. simpl. destruct rest as [|[j o] rest']; simpl; [reflexivity|].
  destruct (j =? i); reflexivity.
Qed.

(** C5, as the code has it.  When the two tagged rows at the front share an
    index and the first of them is due (the partition queue is empty or the
    index is at most [_totalRowCounter]), two consecutive [getNextRow] calls
    emit both, one after the other.  The first emission leaves
    [_totalRowCounter] alone; the second adds one to it (modulo [2^64])
    unless a third tagged row with the same index follows, so across the
    pair the counter moves by one or by nothing, never by two.  In general an
    emission of a tagged row adds one to [_totalRowCounter] exactly when the
    tagged-row queue is empty afterwards or its new front row carries another
    index. *)
Theorem duplicate_index_pair (s : ResultSet) i a b rest :
  _pyobjects s = (i, a) :: (i, b) :: rest ->
  _partitions s = [] \/ i <= _totalRowCounter s ->
  let r1 := getNextRow s in
  let r2 := getNextRow (state_of r1) in
  row_of r1 = pythonToRow a
  /\ row_of r2 = pythonToRow b
  /\ _pyobjects (state_of r2) = rest
  /\ _totalRowCounter (state_of r1) = _totalRowCounter s
  /\ _totalRowCounter (state_of r2) =
       (if nextCarries i rest then _totalRowCounter s
        else size_t (_totalRowCounter s + 1))
  /\ (forall (s' : ResultSet) j o q,
        _pyobjects s' = (j, o) :: q ->
        _partitions s' = [] \/ j <= _totalRowCounter s' ->
        _totalRowCounter (state_of (getNextRow s')) =
          if nextCarries j q then _totalRowCounter s'
          else size_t (_totalRowCounter s' + 1)).
Proof.
  intros Hq Hdue r1 r2.
  pose proof (getNextRow_tagged s i a ((i, b) :: rest) Hq Hdue) as E1.
  fold r1 in E1. cbn [negb] in E1. rewrite Z.eqb_refl in E1. cbn [negb] in E1.
  assert (Hq1 : _pyobjects (state_of r1) = (i, b) :: rest)
    by (rewrite E1; reflexivity).
  assert (Hdue1 : _partitions (state_of r1) = []
                  \/ i <= _totalRowCounter (state_of r1))
    by (rewrite E1; exact Hdue).
  pose proof (tagged_emission_total (state_of r1) i b rest Hq1 Hdue1) as Ht2.
  pose proof (getNextRow_tagged (state_of r1) i b rest Hq1 Hdue1) as E2.
  fold r2 in E2, Ht2.
  split; [rewrite E1; reflexivity|].
  split; [rewrite E2; reflexivity|].
  split; [rewrite E2; reflexivity|].
  split; [rewrite E1; reflexivity|].
  split; [rewrite Ht2, E1; reflexivity|].
  intros s' j o q Hq' Hdue'. exact (tagged_emission_total s' j o q Hq' Hdue').
Qed.

(** ** [hasNextRow] *)

Lemma hasNextRow_front (s : ResultSet) p rest :
  _rowsRetrieved s < _maxRows s ->
  _partitions s = p :: rest ->
  _curRowCounter s < getNumRows p ->
  hasNextRow s = true.
Proof.
  intros Hlt Hp Hcur. unfold hasNextRow. rewrite Z.geb_leb, Hp.
  destruct (Z.leb_spec (_maxRows s) (_rowsRetrieved s)); [lia|].
  destruct (_pyobjects s); [apply Z.ltb_lt; exact Hcur | reflexivity].
Qed.

(** C4, as the code has it.  [hasNextRow] answers [true] exactly when the
    budget is not used up ([_rowsRetrieved < _maxRows]) and either the
    tagged-row queue is non-empty or the partition at the front of the
    partition queue has unread rows; the partitions behind the front one are
    not looked at. *)
Theorem hasNextRow_iff (s : ResultSet) :
  hasNextRow s = true <->
  _rowsRetrieved s < _maxRows s
  /\ (_pyobjects s <> [] \/ frontPartitionUnread s).
Proof.
  unfold hasNextRow, frontPartitionUnread. rewrite Z.geb_leb.
  destruct (Z.leb_spec (_maxRows s) (_rowsRetrieved s)) as [Hge | Hlt].
  - split; [discriminate | intros [H _]; lia].
  - destruct (_partitions s) as [|p ps], (_pyobjects s) as [|t ts].
    + split; [discriminate|]. intros [_ [H | (p & rest & H & _)]];
        [contradiction | discriminate].
    + split; [|reflexivity]. intros _. split; [exact Hlt | left; discriminate].
    + rewrite Z.ltb_lt. split.
      * intros H. split; [exact Hlt|]. right. exists p, ps. split; [reflexivity | exact H].
      * intros [_ [H | (p' & rest & H & Hcur)]]; [contradiction|].
        injection H as -> ->. exact Hcur.
    + split; [|reflexivity]. intros _. split; [exact Hlt | left; discriminate].
Qed.

(** ** The row budget *)

Lemma mkResultSet_maxRows (schema : Schema) (partitions exceptions : list Partition)
    (pyobjects : list (Z * PyObject)) (maxRows : Z) :
  _maxRows (mkResultSet schema partitions exceptions pyobjects maxRows)
  = if maxRows <? 0 then INT64_MAX else maxRows.
Proof. reflexivity. Qed.

Lemma getNextRow_maxRows (s : ResultSet) :
  _maxRows (state_of (getNextRow s)) = _maxRows s.
Proof.
  cursor_unfold.
  destruct (_pyobjects s) as [|[i o] q], (_partitions s) as [|p ps]; simpl;
    repeat match goal with
           | |- context [if ?b then _ else _] => destruct b; simpl
           end; reflexivity.
Qed.

(** A call that finds one of the queues non-empty counts one row. *)
Lemma getNextRow_counts (s : ResultSet) :
  empty (_partitions s) && empty (_pyobjects s) = false ->
  _rowsRetrieved (state_of (getNextRow s)) = size_t (_rowsRetrieved s + 1).
Proof.
  cursor_unfold.
  destruct (_pyobjects s) as [|[i o] q], (_partitions s) as [|p ps]; simpl;
    intros H; try discriminate;
    repeat match goal with
           | |- context [if ?b then _ else _] => destruct b; simpl
           end; reflexivity.
Qed.

Lemma getNextRow_rowsRetrieved (s : ResultSet) :
  _rowsRetrieved (state_of (getNextRow s)) = _rowsRetrieved s
  \/ _rowsRetrieved (state_of (getNextRow s)) = size_t (_rowsRetrieved s + 1).
Proof.
  destruct (empty (_partitions s) && empty (_pyobjects s)) eqn:E.
  - left. apply andb_true_iff in E. destruct E as [Ep Eq].
    unfold empty in Ep, Eq.
    destruct (_partitions s) eqn:Hp; [|discriminate].
    destruct (_pyobjects s) eqn:Hq; [|discriminate].
    rewrite (getNextRow_both_queues_closed s Hp Hq). reflexivity.
  - right. apply getNextRow_counts. exact E.
Qed.

Lemma budget_used_up (s : ResultSet) :
  _maxRows s <= _rowsRetrieved s ->
  hasNextRow s = false /\ hasNextPartition s = false.
Proof.
  intros H. unfold hasNextRow, hasNextPartition. rewrite Z.geb_leb.
  destruct (Z.leb_spec (_maxRows s) (_rowsRetrieved s)); [split; reflexivity | lia].
Qed.

Lemma hasNextRow_budget (s : ResultSet) :
  hasNextRow s = true -> _rowsRetrieved s < _maxRows s.
Proof.
  unfold hasNextRow. rewrite Z.geb_leb.
  destruct (Z.leb_spec (_maxRows s) (_rowsRetrieved s)); [discriminate | intros _; lia].
Qed.

Lemma run_cons (o : Op) (ops : list Op) (s : ResultSet) :
  run (o :: ops) s =
    (fst (run ops (fst (step o s))), snd (step o s) ++ snd (run ops (fst (step o s)))).
Proof.
  simpl. destruct (step o s) as [s1 ev]. simpl.
  destruct (run ops s1) as [s2 ev']. reflexivity.
Qed.

(** One operation of a consumer that checks [hasNextRow] keeps the count of
    retrieved rows within the budget. *)
Lemma budget_step (o : Op) (s : ResultSet) :
  0 <= _rowsRetrieved s <= _maxRows s ->
  match o with
  | OpGetNextRow => hasNextRow s
  | OpGetNextPartition => false
  | _ => true
  end = true ->
  0 <= _rowsRetrieved (fst (step o s)) <= _maxRows (fst (step o s)).
Proof.
  intros Hinv Hguard. destruct o; simpl; try exact Hinv; try discriminate.
  - apply hasNextRow_budget in Hguard.
    rewrite getNextRow_maxRows.
    destruct (getNextRow_rowsRetrieved s) as [E | E]; rewrite E; [lia|].
    pose proof (size_t_range (_rowsRetrieved s + 1)).
    pose proof (size_t_le (_rowsRetrieved s + 1)). lia.
  - lia.
Qed.

Lemma budget_run (ops : list Op) (s : ResultSet) :
  0 <= _rowsRetrieved s <= _maxRows s ->
  checksHasNextRow ops s = true ->
  0 <= _rowsRetrieved (fst (run ops s)) <= _maxRows (fst (run ops s)).
Proof.
  revert s. induction ops as [|o ops IH]; intros s Hinv Hok.
  - exact Hinv.
  - simpl in Hok. apply andb_true_iff in Hok. destruct Hok as [Hguard Hrest].
    rewrite run_cons. simpl. apply IH; [|exact Hrest].
    apply budget_step; assumption.
Qed.

(** C2, as the code has it.  Starting from a freshly constructed cursor, any
    sequence of [hasNextRow], [hasNextPartition], [rowCount] and [clear]
    calls and of [getNextRow] calls that are made only after [hasNextRow]
    answered [true] keeps [_rowsRetrieved <= _maxRows]; and once
    [_rowsRetrieved] equals [_maxRows], [hasNextRow] and [hasNextPartition]
    answer [false] whatever is left in the queues.  ([getNextRow] and
    [getNextPartition] do not look at the budget themselves.) *)
Theorem budget_kept_by_checked_pulls (schema : Schema)
    (partitions exceptions : list Partition) (pyobjects : list (Z * PyObject))
    (maxRows : Z) (ops : list Op) :
  checksHasNextRow ops
    (mkResultSet schema partitions exceptions pyobjects maxRows) = true ->
  let s := fst (run ops (mkResultSet schema partitions exceptions pyobjects maxRows)) in
  _rowsRetrieved s <= _maxRows s
  /\ (_rowsRetrieved s = _maxRows s ->
      hasNextRow s = false /\ hasNextPartition s = false).
Proof.
  intros Hok s. split.
  - apply budget_run; [|exact Hok]. rewrite mkResultSet_maxRows.
    change (_rowsRetrieved (mkResultSet schema partitions exceptions pyobjects maxRows))
      with 0.
    destruct (Z.ltb_spec maxRows 0); unfold INT64_MAX; lia.
  - intros E. apply budget_used_up. lia.
Qed.

(** ** Exhaustion *)

Lemma size_t_succ (x : Z) : size_t (size_t x + 1) = size_t (x + 1).
Proof. unfold size_t. apply Zplus_mod_idemp_l. Qed.

Lemma pull_succ (n : nat) (s : ResultSet) :
  pull (S n) s =
    (row_of (getNextRow s) :: rows_of (pull n (state_of (getNextRow s))),
     cursor_of (pull n (state_of (getNextRow s))),
     events_of (getNextRow s) ++ trace_of (pull n (state_of (getNextRow s)))).
Proof. reflexivity. Qed.

Lemma pull_maxRows (n : nat) (s : ResultSet) :
  _maxRows (cursor_of (pull n s)) = _maxRows s.
Proof.
  revert s. induction n as [|n IH]; intros s; [reflexivity|].
  rewrite pull_succ. unfold cursor_of at 1. simpl.
  rewrite IH. apply getNextRow_maxRows.
Qed.

Lemma pull_counts (n : nat) (s : ResultSet) :
  successfulPulls n s = true ->
  _rowsRetrieved (cursor_of (pull n s))
  = (if Nat.eqb n 0 then _rowsRetrieved s
     else size_t (_rowsRetrieved s + Z.of_nat n)).
Proof.
  revert s. induction n as [|n IH]; intros s Hok; [reflexivity|].
  simpl in Hok. apply andb_true_iff in Hok. destruct Hok as [Hne Hrest].
  apply negb_true_iff in Hne.
  rewrite pull_succ. unfold cursor_of at 1. simpl.
  fold (cursor_of (pull n (state_of (getNextRow s)))).
  rewrite (IH _ Hrest), (getNextRow_counts s Hne).
  destruct n as [|n]; simpl Nat.eqb; cbv iota.
  - reflexivity.
  - unfold size_t. rewrite Zplus_mod_idemp_l. f_equal. lia.
Qed.

Lemma pull_closed (k : nat) (s : ResultSet) :
  _partitions s = [] -> _pyobjects s = [] ->
  pull k s = (repeat Row_empty k, s, []).
Proof.
  intros Hp Hq. induction k as [|k IH]; [reflexivity|].
  rewrite pull_succ, (getNextRow_both_queues_closed s Hp Hq).
  unfold row_of, state_of, events_of, rows_of, cursor_of, trace_of. simpl.
  rewrite IH. reflexivity.
Qed.

(** C3, as the code has it.  For a cursor constructed with budget [maxRows]:
    after exactly [_maxRows] successful [getNextRow] calls [hasNextRow]
    answers [false]; and whenever both queues have run empty (after fewer
    calls, maybe) [hasNextRow] answers [false] and every further
    [getNextRow] call returns the empty row and changes nothing.  A further
    call made while rows are still queued is not covered: [getNextRow] does
    not look at the budget. *)
Theorem exhaustion (schema : Schema) (partitions exceptions : list Partition)
    (pyobjects : list (Z * PyObject)) (maxRows : Z) (n : nat) :
  int64_range maxRows ->
  let s0 := mkResultSet schema partitions exceptions pyobjects maxRows in
  let s := cursor_of (pull n s0) in
  (successfulPulls n s0 = true -> Z.of_nat n = _maxRows s0 ->
   hasNextRow s = false)
  /\ (_partitions s = [] -> _pyobjects s = [] ->
      hasNextRow s = false
      /\ forall k, pull k s = (repeat Row_empty k, s, [])).
Proof.
  intros Hrange s0 s. split.
  - intros Hok Hn. apply budget_used_up.
    unfold s. rewrite pull_maxRows, (pull_counts n s0 Hok).
    assert (Hm : 0 <= _maxRows s0 < 2 ^ 63).
    { unfold s0. rewrite mkResultSet_maxRows. unfold int64_range, INT64_MAX in *.
      destruct (Z.ltb_spec maxRows 0); lia. }
    destruct n as [|n]; simpl Nat.eqb; cbv iota.
    + rewrite <- Hn. change (_rowsRetrieved s0) with 0. simpl. lia.
    + replace (_rowsRetrieved s0) with 0 by reflexivity.
      rewrite size_t_small; lia.
  - intros Hp Hq. split.
    + unfold hasNextRow. rewrite Hp, Hq.
      destruct (_rowsRetrieved s >=? _maxRows s); reflexivity.
    + intros k. apply pull_closed; assumption.
Qed.

(** ** Reading partitions in order *)

Lemma decodeRows_succ (schema : Schema) (p : Partition) (n : nat) (off : Z) :
  decodeRows schema p (S n) off =
    fromMemory schema (skipn (Z.to_nat off) (memory p)) (size_t (capacity p - off))
    :: decodeRows schema p n
         (size_t (off + serializedLength
                          (fromMemory schema (skipn (Z.to_nat off) (memory p))
                             (size_t (capacity p - off))))).
Proof. reflexivity. Qed.

Lemma pendingRows_fresh (s : ResultSet) :
  _curRowCounter s = 0 -> _byteCounter s = 0 ->
  pendingRows s = concat (map (storedRows (_schema s)) (_partitions s)).
Proof.
  intros Hc Hb. unfold pendingRows.
  destruct (_partitions s) as [|p rest]; [reflexivity|].
  rewrite Hc, Hb, Z.sub_0_r. reflexivity.
Qed.

(** One call on a streaming cursor returns the first pending row and leaves a
    streaming cursor whose pending rows are the remaining ones. *)
Lemma streaming_step (s : ResultSet) p rest :
  streaming s -> _partitions s = p :: rest ->
  pendingRows s = row_of (getNextRow s) :: pendingRows (state_of (getNextRow s))
  /\ streaming (state_of (getNextRow s)).
Proof.
  intros (Hq & Hall & Hcur) Hp. rewrite Hp in Hall, Hcur.
  pose proof (Forall_inv Hall) as Hrows. pose proof (Forall_inv_tail Hall) as Hrest.
  unfold holdsRows in Hrows.
  rewrite (getNextRow_no_tagged s Hq).
  unfold pendingRows at 1. rewrite Hp.
  destruct (Z.to_nat (getNumRows p - _curRowCounter s)) as [|k] eqn:Hk; [lia|].
  rewrite decodeRows_succ.
  unfold nextPartitionRow. rewrite Hp. cbn [_curRowCounter _partitions].
  rewrite (size_t_small (_curRowCounter s + 1)) by lia.
  destruct (Z.eqb_spec (_curRowCounter s + 1) (getNumRows p)) as [Elast | Emore].
  - (* the last row of the front partition *)
    assert (k = 0%nat) by lia. subst k.
    unfold removeFirstPartition. cbn [_partitions].
    unfold row_of, state_of, streaming, pendingRows. simpl.
    split.
    + f_equal. destruct rest as [|q rest']; [reflexivity|].
      rewrite Z.sub_0_r. reflexivity.
    + split; [exact Hq|]. split; [exact Hrest|].
      destruct rest as [|q rest']; [exact I|].
      pose proof (Forall_inv Hrest) as Hq'. unfold holdsRows in Hq'. lia.
  - unfold row_of, state_of, streaming, pendingRows. simpl.
    split.
    + f_equal. f_equal. f_equal. lia.
    + split; [exact Hq|]. split; [exact Hall|]. lia.
Qed.

Lemma pull_streaming (n : nat) (s : ResultSet) :
  streaming s ->
  rows_of (pull n s)
  = firstn n (pendingRows s) ++ repeat Row_empty (n - length (pendingRows s)).
Proof.
  revert s. induction n as [|n IH]; intros s Hs; [reflexivity|].
  destruct (_partitions s) as [|p rest] eqn:Hp.
  - destruct Hs as (Hq & _). rewrite (pull_closed (S n) s Hp Hq).
    unfold pendingRows. rewrite Hp. reflexivity.
  - destruct (streaming_step s p rest Hs Hp) as [E Hs'].
    rewrite pull_succ. unfold rows_of at 1. cbn [fst].
    rewrite (IH _ Hs'), E. reflexivity.
Qed.

Lemma mkResultSet_streaming (schema : Schema) (partitions exceptions : list Partition)
    (maxRows : Z) :
  Forall holdsRows partitions ->
  streaming (mkResultSet schema partitions exceptions [] maxRows).
Proof.
  intros Hall. unfold streaming. simpl. split; [reflexivity|]. split; [exact Hall|].
  destruct partitions as [|p rest]; [exact I|].
  pose proof (Forall_inv Hall) as Hp. unfold holdsRows in Hp. lia.
Qed.

(** The consumer loop guarded by [hasNextRow] returns the pending rows of a
    streaming cursor when the budget leaves room for them. *)
Lemma drain_streaming (fuel : nat) (s : ResultSet) :
  streaming s ->
  0 <= _rowsRetrieved s ->
  _rowsRetrieved s + Z.of_nat (length (pendingRows s)) <= _maxRows s ->
  _maxRows s < 2 ^ 64 ->
  (length (pendingRows s) <= fuel)%nat ->
  fst (drain fuel s) = pendingRows s.
Proof.
  revert s. induction fuel as [|fuel IH]; intros s Hs Hr Hroom Hmax Hfuel.
  - destruct (pendingRows s); [reflexivity | simpl in Hfuel; lia].
  - destruct (_partitions s) as [|p rest] eqn:Hp.
    + destruct Hs as (Hq & _). unfold pendingRows. rewrite Hp.
      simpl. unfold hasNextRow. rewrite Hp, Hq.
      destruct (_rowsRetrieved s >=? _maxRows s); reflexivity.
    + destruct (streaming_step s p rest Hs Hp) as [E Hs'].
      rewrite E in Hroom, Hfuel. simpl length in Hroom, Hfuel.
      assert (Hnext : hasNextRow s = true).
      { apply (hasNextRow_front s p rest); [lia | exact Hp |].
        destruct Hs as (_ & _ & Hcur). rewrite Hp in Hcur. lia. }
      assert (Hcount : _rowsRetrieved (state_of (getNextRow s)) = _rowsRetrieved s + 1).
      { rewrite getNextRow_counts by (rewrite Hp; reflexivity).
        apply size_t_small. lia. }
      simpl. rewrite Hnext. cbn [fst]. rewrite E. f_equal.
      apply IH.
      * exact Hs'.
      * lia.
      * rewrite getNextRow_maxRows. lia.
      * rewrite getNextRow_maxRows. exact Hmax.
      * lia.
Qed.

(** C6, as the code has it.  For a cursor constructed with no tagged row and
    with partitions that hold at least one row each, the rows returned by
    [n] consecutive [getNextRow] calls are the first [n] rows of the
    concatenation of the partitions' stored rows, in queue order and in
    stored order inside a partition, followed by empty rows once the
    concatenation is used up; this holds whatever the budget is, which
    [getNextRow] does not look at.  With an unbounded budget the loop that
    pulls while [hasNextRow] holds returns exactly that concatenation. *)
Theorem partitions_in_order (schema : Schema) (partitions exceptions : list Partition)
    (maxRows : Z) (n : nat) :
  Forall holdsRows partitions ->
  let all := concat (map (storedRows schema) partitions) in
  rows_of (pull n (mkResultSet schema partitions exceptions [] maxRows))
  = firstn n all ++ repeat Row_empty (n - length all)
  /\ (maxRows < 0 -> Z.of_nat (length all) <= INT64_MAX ->
      forall fuel, (length all <= fuel)%nat ->
      fst (drain fuel (mkResultSet schema partitions exceptions [] maxRows)) = all).
Proof.
  intros Hall all.
  pose proof (mkResultSet_streaming schema partitions exceptions maxRows Hall) as Hs.
  assert (Hpend : pendingRows (mkResultSet schema partitions exceptions [] maxRows) = all)
    by (rewrite pendingRows_fresh by reflexivity; reflexivity).
  split.
  - rewrite (pull_streaming n _ Hs), Hpend. reflexivity.
  - intros Hneg Hfit fuel Hfuel.
    transitivity (pendingRows (mkResultSet schema partitions exceptions [] maxRows));
      [|exact Hpend].
    apply drain_streaming; rewrite ?Hpend, ?mkResultSet_maxRows; try assumption.
    + simpl. lia.
    + destruct (Z.ltb_spec maxRows 0); [|lia]. simpl. lia.
    + destruct (Z.ltb_spec maxRows 0); [|lia]. unfold INT64_MAX. lia.
Qed.

(** ** Splicing a tagged row into the partition stream *)

Lemma nextPartitionRow_samePartitionSide (s s' : ResultSet) :
  samePartitionSide s s' ->
  row_of (nextPartitionRow s) = row_of (nextPartitionRow s')
  /\ samePartitionSide (state_of (nextPartitionRow s)) (state_of (nextPartitionRow s')).
Proof.
  intros (Hp & Hc & Hb & Hs).
  unfold nextPartitionRow, removeFirstPartition, samePartitionSide.
  rewrite Hp, Hc, Hb, Hs.
  destruct (_partitions s') as [|p ps] eqn:Hp'; simpl.
  - unfold row_of, state_of. simpl. rewrite Hp, Hp'. repeat split; assumption.
  - destruct (size_t (_curRowCounter s' + 1) =? getNumRows p);
      unfold row_of, state_of; simpl; repeat split; reflexivity.
Qed.

Lemma pull_samePartitionSide (n : nat) (s s' : ResultSet) :
  samePartitionSide s s' -> _pyobjects s = [] -> _pyobjects s' = [] ->
  rows_of (pull n s) = rows_of (pull n s').
Proof.
  revert s s'. induction n as [|n IH]; intros s s' Hside Hq Hq'; [reflexivity|].
  rewrite !pull_succ. unfold rows_of at 1 3. cbn [fst].
  rewrite (getNextRow_no_tagged s Hq), (getNextRow_no_tagged s' Hq').
  destruct (nextPartitionRow_samePartitionSide s s' Hside) as [Erow Hside'].
  rewrite Erow. f_equal. apply IH.
  - exact Hside'.
  - rewrite nextPartitionRow_pyobjects. exact Hq.
  - rewrite nextPartitionRow_pyobjects. exact Hq'.
Qed.

Lemma nextPartitionRow_total (s : ResultSet) p ps :
  _partitions s = p :: ps ->
  _totalRowCounter (state_of (nextPartitionRow s)) = size_t (_totalRowCounter s + 1).
Proof.
  intros Hp. unfold nextPartitionRow, removeFirstPartition. rewrite Hp. simpl.
  destruct (size_t (_curRowCounter s + 1) =? getNumRows p);
    unfold state_of; simpl; reflexivity.
Qed.

(** With one tagged row of index 1 queued, the rows pulled are those pulled
    without it, with the converted tagged row put in at position 1. *)
Lemma tagged_row_spliced (schema : Schema) p (parts exceptions : list Partition)
    (t : PyObject) (maxRows : Z) (n : nat) :
  rows_of (pull (S (S n)) (mkResultSet schema (p :: parts) exceptions [(1, t)] maxRows))
  = match rows_of (pull (S n) (mkResultSet schema (p :: parts) exceptions [] maxRows)) with
    | [] => []
    | P0 :: tl => P0 :: pythonToRow t :: tl
    end.
Proof.
  set (sw := mkResultSet schema (p :: parts) exceptions [(1, t)] maxRows).
  set (so := mkResultSet schema (p :: parts) exceptions [] maxRows).
  assert (Hside : samePartitionSide sw so) by (repeat split).
  assert (Hsw : rows_of (pull (S (S n)) sw)
                = row_of (getNextRow sw)
                  :: row_of (getNextRow (state_of (getNextRow sw)))
                  :: rows_of (pull n (state_of (getNextRow (state_of (getNextRow sw))))))
    by reflexivity.
  assert (Hso : rows_of (pull (S n) so)
                = row_of (getNextRow so) :: rows_of (pull n (state_of (getNextRow so))))
    by reflexivity.
  rewrite Hsw, Hso. clear Hsw Hso.
  rewrite (getNextRow_no_tagged so eq_refl).
  assert (E1 : getNextRow sw = nextPartitionRow sw).
  { apply (getNextRow_not_due sw 1 t [] p parts); reflexivity. }
  rewrite E1.
  destruct (nextPartitionRow_samePartitionSide sw so Hside) as [Erow Hside1].
  rewrite Erow. f_equal.
  set (s1 := state_of (nextPartitionRow sw)) in *.
  assert (Hq1 : _pyobjects s1 = [(1, t)]).
  { unfold s1. rewrite nextPartitionRow_pyobjects. reflexivity. }
  assert (Ht1 : _totalRowCounter s1 = 1).
  { unfold s1. rewrite (nextPartitionRow_total sw p parts eq_refl). reflexivity. }
  assert (Hdue : _partitions s1 = [] \/ 1 <= _totalRowCounter s1) by (right; lia).
  rewrite (getNextRow_tagged s1 1 t [] Hq1 Hdue).
  unfold row_of, state_of. cbn [fst snd]. f_equal.
  apply pull_samePartitionSide.
  - destruct Hside1 as (A & B & D & E). repeat split; simpl; assumption.
  - reflexivity.
  - apply nextPartitionRow_pyobjects.
Qed.

Lemma decodeRows_length (schema : Schema) (p : Partition) (n : nat) (off : Z) :
  length (decodeRows schema p n off) = n.
Proof.
  revert off. induction n as [|n IH]; intros off; simpl; [reflexivity|].
  rewrite IH. reflexivity.
Qed.

(** C1, as the code has it.  With a tagged row at the front of the
    tagged-row queue, [getNextRow] emits it (converts it under the GIL,
    returns the converted row and pops it) if and only if the partition
    queue is empty or the row's index is at most [_totalRowCounter].
    Consequently, for a cursor constructed with a non-empty partition queue
    and the single tagged row of index 1: if the rows pulled without the
    tagged row are [P0, P1, P2, ...] then the rows pulled with it are
    [P0, Tagged, P1, P2, ...]; and when every partition holds at least one
    row, [P0, P1, P2, ...] is the concatenation of the partitions' stored
    rows. *)
Theorem tagged_row_merge (s : ResultSet) i obj rest :
  _pyobjects s = (i, obj) :: rest ->
  ((row_of (getNextRow s) = pythonToRow obj
    /\ _pyobjects (state_of (getNextRow s)) = rest
    /\ events_of (getNextRow s) = [LockGIL; UnlockGIL])
   <-> (_partitions s = [] \/ i <= _totalRowCounter s))
  /\ (forall (schema : Schema) p (parts exceptions : list Partition)
        (t : PyObject) (maxRows : Z),
        let without := mkResultSet schema (p :: parts) exceptions [] maxRows in
        let with1 := mkResultSet schema (p :: parts) exceptions [(1, t)] maxRows in
        (forall n, exists P0 tl,
            rows_of (pull (S n) without) = P0 :: tl
            /\ rows_of (pull (S (S n)) with1) = P0 :: pythonToRow t :: tl)
        /\ (Forall holdsRows (p :: parts) ->
            let all := concat (map (storedRows schema) (p :: parts)) in
            rows_of (pull (S (length all)) with1)
            = firstn 1 all ++ pythonToRow t :: skipn 1 all)).
Proof.
  intros Hq. split.
  - split.
    + intros (_ & Hpop & _).
      destruct (_partitions s) as [|p ps] eqn:Hp; [left; reflexivity|].
      destruct (Z.le_gt_cases i (_totalRowCounter s)) as [Hle | Hgt]; [right; exact Hle|].
      exfalso.
      rewrite (getNextRow_not_due s i obj rest p ps Hq Hp Hgt) in Hpop.
      rewrite nextPartitionRow_pyobjects, Hq in Hpop.
      apply (f_equal (@length _)) in Hpop. simpl in Hpop. lia.
    + intros Hdue. rewrite (getNextRow_tagged s i obj rest Hq Hdue).
      repeat split.
  - intros schema p parts exceptions t maxRows without with1. split.
    + intros n. unfold with1. rewrite tagged_row_spliced. fold without.
      rewrite (pull_succ n without). unfold rows_of at 1 3. cbn [fst].
      eexists. eexists. split; reflexivity.
    + intros Hall all.
      pose proof (pull_streaming (length all) without
                    (mkResultSet_streaming schema (p :: parts) exceptions maxRows Hall)) as E.
      rewrite pendingRows_fresh in E by reflexivity.
      change (concat (map (storedRows (_schema without)) (_partitions without)))
        with all in E.
      rewrite firstn_all, Nat.sub_diag, app_nil_r in E.
      assert (Hlen : (0 < length all)%nat).
      { unfold all. simpl. rewrite length_app. unfold storedRows at 1.
        rewrite decodeRows_length.
        pose proof (Forall_inv Hall) as Hp. unfold holdsRows in Hp. lia. }
      destruct (length all) as [|m] eqn:Hm; [lia|].
      unfold with1. rewrite tagged_row_spliced. fold without. rewrite E.
      destruct all as [|P0 tl]; [discriminate|]. reflexivity.
Qed.

(** ** Retirement of partitions *)

Lemma invalidations_app (a : Z) (t1 t2 : list Event) :
  invalidations a (t1 ++ t2) = (invalidations a t1 + invalidations a t2)%nat.
Proof. unfold invalidations. apply count_occ_app. Qed.

Lemma invalidations_cons (a b : Z) (tr : list Event) :
  invalidations a (PartitionInvalidate b :: tr)
  = ((if Z.eq_dec b a then 1 else 0) + invalidations a tr)%nat.
Proof.
  unfold invalidations. destruct (Z.eq_dec b a) as [E | E].
  - rewrite count_occ_cons_eq by congruence. reflexivity.
  - rewrite count_occ_cons_neq by congruence. reflexivity.
Qed.

Lemma invalidations_skip (a : Z) (e : Event) (tr : list Event) :
  (forall b, e <> PartitionInvalidate b) ->
  invalidations a (e :: tr) = invalidations a tr.
Proof.
  intros H. unfold invalidations. apply count_occ_cons_neq. apply H.
Qed.

Lemma invalidations_map (a : Z) (ps : list Partition) :
  invalidations a (map (fun p => PartitionInvalidate (addr p)) ps)
  = count_occ Z.eq_dec (map addr ps) a.
Proof.
  induction ps as [|p ps IH]; [reflexivity|].
  cbn [map]. rewrite invalidations_cons, IH.
  destruct (Z.eq_dec (addr p) a) as [E | E].
  - rewrite count_occ_cons_eq by exact E. reflexivity.
  - rewrite count_occ_cons_neq by exact E. reflexivity.
Qed.

Lemma invalidations_retire (a b : Z) :
  invalidations a [PartitionLock b; PartitionUnlock b; PartitionInvalidate b]
  = if Z.eq_dec b a then 1%nat else 0%nat.
Proof.
  rewrite !invalidations_skip by (intros; discriminate).
  rewrite invalidations_cons. unfold invalidations. simpl.
  destruct (Z.eq_dec b a); reflexivity.
Qed.






(** What a call of [getNextRow] does to the partition queue and which events
    it produces. *)
Lemma getNextRow_cases (s : ResultSet) :
  _exceptions (state_of (getNextRow s)) = _exceptions s
  /\ ((_partitions (state_of (getNextRow s)) = _partitions s
       /\ events_of (getNextRow s) = [LockGIL; UnlockGIL])
      \/ (_partitions (state_of (getNextRow s)) = _partitions s
          /\ events_of (getNextRow s) = [])
      \/ (exists p ps,
            _partitions s = p :: ps
            /\ _partitions (state_of (getNextRow s)) = p :: ps
            /\ events_of (getNextRow s)
               = [PartitionLock (addr p); PartitionUnlock (addr p)])
      \/ (exists p ps,
            _partitions s = p :: ps
            /\ _partitions (state_of (getNextRow s)) = ps
            /\ events_of (getNextRow s)
               = [PartitionLock (addr p); PartitionUnlock (addr p);
                  PartitionInvalidate (addr p)])).
Proof.
  cursor_unfold.
  destruct (_pyobjects s) as [|[i o] q], (_partitions s) as [|p ps] eqn:Hp; simpl;
    repeat match goal with
           | |- context [if ?b then _ else _] => destruct b; simpl
           end;
    rewrite ?Hp;
    (split; [reflexivity|]);
    first [ left; split; reflexivity
          | right; left; split; reflexivity
          | right; right; left; exists p, ps; repeat split; reflexivity
          | right; right; right; exists p, ps; repeat split; reflexivity ].
Qed.







Lemma NoDup_app_disjoint {A : Type} (l1 l2 : list A) (a : A) :
  NoDup (l1 ++ l2) -> In a l1 -> ~ In a l2.
Proof.
  induction l1 as [|x l1 IH]; intros Hnd Hin; [destruct Hin|].
  simpl in Hnd. apply NoDup_cons_iff in Hnd. destruct Hnd as [Hx Hnd].
  destruct Hin as [-> | Hin].
  - intros H2. apply Hx. apply in_or_app. right. exact H2.
  - apply IH; assumption.
Qed.

Lemma step_exceptions (o : Op) (s : ResultSet) :
  _exceptions (fst (step o s)) = _exceptions s.
Proof.
  destruct o; simpl; try reflexivity.
  - apply getNextRow_cases.
  - unfold getNextPartition. destruct (_partitions s); reflexivity.
Qed.





(** ** [clear] *)

(** What [clear] does: it invalidates the queued partitions, then the
    partitions of the exception list, empties the partition queue and sets
    the row offset, the byte offset, [_rowsRetrieved] and the budget to
    zero.  It assigns nothing to [_totalRowCounter] and leaves the tagged-row
    queue as it is. *)
Lemma clear_effect (s : ResultSet) :
  snd (clear s)
  = map (fun p => PartitionInvalidate (addr p)) (_partitions s)
    ++ map (fun p => PartitionInvalidate (addr p)) (_exceptions s)
  /\ _partitions (fst (clear s)) = []
  /\ _curRowCounter (fst (clear s)) = 0
  /\ _byteCounter (fst (clear s)) = 0
  /\ _rowsRetrieved (fst (clear s)) = 0
  /\ _maxRows (fst (clear s)) = 0
  /\ _totalRowCounter (fst (clear s)) = _totalRowCounter s
  /\ _pyobjects (fst (clear s)) = _pyobjects s.
Proof. repeat split. Qed.

End Properties.

(** * The theorems at concrete cursors *)

(** C1 fails as stated: the front partition holds no row, the one behind it
    holds rows [A] and [B], and one tagged row of index 1 is queued.  The
    concatenated rows are [[A; B]], but the first pull decodes the stale byte
    of the front partition, so no number of pulls returns
    [[A; Tagged; B]]; three pulls return the stale row, the tagged row and
    an empty row. *)
Lemma empty_partition_breaks_splice :
  let s0 := cursor [partNone; partAB] [] [(1, [Byte.x74])] (-1) in
  concat (map (storedRows (C := OneByteRows) tt) [partNone; partAB])
  = [[Byte.x41]; [Byte.x42]]
  /\ rows_of (pull 3 s0) = [[Byte.x5a]; [Byte.x74]; []]
  /\ (forall n, rows_of (pull n s0) <> [[Byte.x41]; [Byte.x74]; [Byte.x42]]).
Proof.
  intros s0. split; [reflexivity|]. split; [reflexivity|].
  intros [|n]; [discriminate|].
  rewrite (pull_succ (C := OneByteRows)).
  change (row_of (getNextRow s0)) with [Byte.x5a].
  unfold rows_of at 1. cbn [fst]. intros H. injection H as H _. discriminate H.
Qed.

(** A tagged row of index 1 lands between the first and the second row of
    the partitions. *)
Lemma tagged_row_merge_witness :
  let s := cursor [partAB; partC] [] [(1, [Byte.x74])] (-1) in
  _pyobjects s = [(1, [Byte.x74])]
  /\ rows_of (pull 4 s) = [[Byte.x41]; [Byte.x74]; [Byte.x42]; [Byte.x43]].
Proof.
  intros s. split; [reflexivity|].
  destruct (tagged_row_merge (C := OneByteRows) s 1 [Byte.x74] [] eq_refl) as [_ H].
  destruct (H tt partAB [partC] [] [Byte.x74] (-1)) as [_ H2].
  apply H2. repeat constructor; unfold holdsRows; simpl; lia.
Defined.

(** C2 fails as stated.  First cursor: the budget is zero rows, so
    [_rowsRetrieved] equals [_maxRows] from the start; still [getNextRow]
    returns row [C], [getNextPartition] hands out the partition, and after
    the pull [_rowsRetrieved] is 1, above the budget.  Second cursor: the
    budget is one row and [hasNextPartition] answers [true]; the
    [getNextPartition] call that follows counts the two rows of the
    partition, which brings [_rowsRetrieved] to 2. *)
Lemma budget_exceeded_by_unchecked_pull :
  (let s0 := cursor [partC] [] [] 0 in
   let s := fst (run [OpGetNextRow] s0) in
   _rowsRetrieved s0 = _maxRows s0
   /\ row_of (getNextRow s0) = [Byte.x43]
   /\ fst (getNextPartition s0) = Some partC
   /\ _rowsRetrieved s = 1 /\ _maxRows s = 0
   /\ ~ (_rowsRetrieved s <= _maxRows s))
  /\ (let s0 := cursor [partAB] [] [] 1 in
      let s := fst (run [OpHasNextPartition; OpGetNextPartition] s0) in
      hasNextPartition s0 = true
      /\ _rowsRetrieved s = 2 /\ _maxRows s = 1
      /\ ~ (_rowsRetrieved s <= _maxRows s)).
Proof.
  split.
  - intros s0 s. repeat (split; [reflexivity|]).
    vm_compute. intros H. apply H. reflexivity.
  - intros s0 s. repeat (split; [reflexivity|]).
    vm_compute. intros H. apply H. reflexivity.
Qed.

Lemma budget_kept_by_checked_pulls_witness :
  let ops := [OpHasNextRow; OpGetNextRow; OpHasNextRow; OpRowCount; OpClear] in
  let s0 := cursor [partAB] [] [] 1 in
  checksHasNextRow ops s0 = true
  /\ _rowsRetrieved (fst (run ops s0)) <= _maxRows (fst (run ops s0)).
Proof.
  intros ops s0. split; [reflexivity|].
  apply (budget_kept_by_checked_pulls (C := OneByteRows) tt [partAB] [] [] 1 ops).
  reflexivity.
Defined.

(** C3 fails as stated: the budget is one row and one row was pulled, so
    [hasNextRow] answers [false], yet the next [getNextRow] call returns row
    [B] of the partition, not the empty row, and counts it. *)
Lemma pull_past_budget_returns_row :
  let s0 := cursor [partAB] [] [] 1 in
  let s := cursor_of (pull 1 s0) in
  successfulPulls 1 s0 = true
  /\ Z.of_nat 1 = _maxRows s0
  /\ hasNextRow s = false
  /\ row_of (getNextRow s) = [Byte.x42]
  /\ row_of (getNextRow s) <> Row_empty
  /\ _rowsRetrieved (state_of (getNextRow s)) = 2.
Proof.
  intros s0 s. repeat split. vm_compute. discriminate.
Qed.

Lemma exhaustion_witness :
  let s0 := cursor [partAB] [] [] 1 in
  int64_range 1
  /\ (successfulPulls 1 s0 = true -> Z.of_nat 1 = _maxRows s0 ->
      hasNextRow (cursor_of (pull 1 s0)) = false).
Proof.
  intros s0.
  assert (Hrange : int64_range 1) by (unfold int64_range; lia).
  split; [exact Hrange|].
  apply (exhaustion (C := OneByteRows) tt [partAB] [] [] 1 1 Hrange).
Defined.

(** C4 fails as stated: the budget is unbounded and the second partition
    holds an unread row, yet [hasNextRow] answers [false] because the front
    partition holds none. *)
Lemma hasNextRow_ignores_partitions_behind_front :
  let s := cursor [partNone; partC] [] [] (-1) in
  ~ (hasNextRow s = true <->
     _rowsRetrieved s < _maxRows s
     /\ (_pyobjects s <> [] \/ somePartitionUnread s)).
Proof.
  intros s [_ H].
  assert (E : hasNextRow s = true).
  { apply H. split; [reflexivity|]. right.
    exists 1%nat, partC. split; reflexivity. }
  discriminate E.
Qed.

(** C5 fails as stated.  First cursor: two tagged rows of index 2 are queued
    behind a partition that is not that far yet; the first call returns row
    [A] of the partition, not a tagged row.  Second cursor: three tagged rows
    share index 0; the first two are emitted one after the other and
    [_totalRowCounter] has not moved. *)
Lemma duplicate_index_pair_not_always :
  (let s := cursor [partAB] [] [(2, [Byte.x74]); (2, [Byte.x75])] (-1) in
   row_of (getNextRow s) = [Byte.x41]
   /\ row_of (getNextRow s) <> @pythonToRow OneByteRows [Byte.x74])
  /\ (let s := cursor [] [] [(0, [Byte.x74]); (0, [Byte.x75]); (0, [Byte.x76])] (-1) in
      let s2 := state_of (getNextRow (state_of (getNextRow s))) in
      rows_of (pull 2 s) = [[Byte.x74]; [Byte.x75]]
      /\ _totalRowCounter s2 = _totalRowCounter s
      /\ _totalRowCounter s2 <> size_t (_totalRowCounter s + 1)).
Proof.
  split.
  - intros s. split; [reflexivity | vm_compute; discriminate].
  - intros s s2. split; [reflexivity|]. split; [reflexivity|].
    vm_compute. discriminate.
Qed.

Lemma duplicate_index_pair_witness :
  let s := cursor [] [] [(0, [Byte.x74]); (0, [Byte.x75])] (-1) in
  let s2 := state_of (getNextRow (state_of (getNextRow s))) in
  _pyobjects s = [(0, [Byte.x74]); (0, [Byte.x75])]
  /\ (_partitions s = [] \/ 0 <= _totalRowCounter s)
  /\ _totalRowCounter s2 = 1.
Proof.
  intros s s2.
  assert (Hdue : _partitions s = [] \/ 0 <= _totalRowCounter s) by (left; reflexivity).
  split; [reflexivity|]. split; [exact Hdue|].
  destruct (duplicate_index_pair (C := OneByteRows) s 0 [Byte.x74] [Byte.x75] []
              eq_refl Hdue) as (_ & _ & _ & _ & H & _).
  exact H.
Defined.

(** C6 fails as stated: the front partition holds no row, the second one
    holds row [C].  The first pull decodes the stale byte of the front
    partition, so no number of pulls returns [[C]]; and the loop guarded by
    [hasNextRow] stops at once. *)
Lemma empty_partition_breaks_order :
  let s0 := cursor [partNone; partC] [] [] (-1) in
  concat (map (storedRows (C := OneByteRows) tt) [partNone; partC]) = [[Byte.x43]]
  /\ (forall n, rows_of (pull n s0) <> [[Byte.x43]])
  /\ (forall fuel, fst (drain fuel s0) = []).
Proof.
  intros s0. split; [reflexivity|]. split.
  - intros [|n]; [discriminate|].
    rewrite (pull_succ (C := OneByteRows)).
    change (row_of (getNextRow s0)) with [Byte.x5a].
    unfold rows_of at 1. cbn [fst]. intros H. injection H as H _. discriminate H.
  - intros [|fuel]; reflexivity.
Qed.

Lemma partitions_in_order_witness :
  Forall holdsRows [partAB; partC]
  /\ rows_of (pull 4 (cursor [partAB; partC] [] [] (-1)))
     = [[Byte.x41]; [Byte.x42]; [Byte.x43]; []].
Proof.
  assert (H : Forall holdsRows [partAB; partC])
    by (repeat constructor; unfold holdsRows; simpl; lia).
  split; [exact H|].
  exact (proj1 (partitions_in_order (C := OneByteRows) tt [partAB; partC] [] (-1) 4 H)).
Defined.



(** C8 at a concrete cursor: one tagged row is pulled, which brings
    [_totalRowCounter] to 1, and the cursor is cleared.  [clear] sets the
    other counters and the budget to zero; [_totalRowCounter] is still 1. *)
Theorem clear_keeps_totalRowCounter :
  let s := state_of (getNextRow (cursor [partC] [partExc] [(0, [Byte.x74])] (-1))) in
  _totalRowCounter s = 1
  /\ _rowsRetrieved (fst (clear s)) = 0
  /\ _curRowCounter (fst (clear s)) = 0
  /\ _byteCounter (fst (clear s)) = 0
  /\ _maxRows (fst (clear s)) = 0
  /\ _partitions (fst (clear s)) = []
  /\ snd (clear s) = [PartitionInvalidate 8192; PartitionInvalidate 16384]
  /\ _totalRowCounter (fst (clear s)) = 1.
Proof. repeat split. Qed.

Lemma tagged_emission_frame_witness :
  let s := cursor [partAB] [] [(0, [Byte.x74])] (-1) in
  _pyobjects s = [(0, [Byte.x74])]
  /\ (_partitions s = [] \/ 0 <= _totalRowCounter s)
  /\ _partitions (state_of (getNextRow s)) = [partAB]
  /\ _curRowCounter (state_of (getNextRow s)) = 0
  /\ _byteCounter (state_of (getNextRow s)) = 0.
Proof.
  intros s.
  assert (Hdue : _partitions s = [] \/ 0 <= _totalRowCounter s) by (right; simpl; lia).
  split; [reflexivity|]. split; [exact Hdue|].
  destruct (tagged_emission_frame (C := OneByteRows) s 0 [Byte.x74] [] eq_refl Hdue)
    as (_ & Hp & Hc & Hb & _).
  repeat split; assumption.
Defined.

Lemma getNextRow_both_queues_empty_witness :
  let s := cursor [] [] [] (-1) in
  _partitions s = [] /\ _pyobjects s = []
  /\ getNextRow s = (Row_empty, s, []).
Proof.
  intros s. split; [reflexivity|]. split; [reflexivity|].
  exact (getNextRow_both_queues_empty (C := OneByteRows) s eq_refl eq_refl).
Defined.

(** * The merge as a whole, the bulk path and the bookkeeping *)

Section Merge.

Context {C : Collaborators}.

(** ** One call on a cursor whose partitions hold rows *)

Lemma partitionsReady_pending (s : ResultSet) p rest :
  partitionsReady s -> _partitions s = p :: rest ->
  exists r tl, pendingRows s = r :: tl.
Proof.
  intros (Hall & Hcur) Hp. rewrite Hp in Hcur. unfold pendingRows. rewrite Hp.
  destruct (Z.to_nat (getNumRows p - _curRowCounter s)) as [|k] eqn:Hk; [lia|].
  rewrite decodeRows_succ. simpl. eexists. eexists. reflexivity.
Qed.

(** The partition path: the row returned is the first pending one. *)
Lemma partitionsReady_partition_step (s : ResultSet) p rest :
  partitionsReady s -> _partitions s = p :: rest ->
  pendingRows s
  = row_of (nextPartitionRow s) :: pendingRows (state_of (nextPartitionRow s))
  /\ partitionsReady (state_of (nextPartitionRow s))
  /\ taggedRows (state_of (nextPartitionRow s)) = taggedRows s.
Proof.
  intros (Hall & Hcur) Hp. rewrite Hp in Hall, Hcur.
  pose proof (Forall_inv Hall) as Hrows. pose proof (Forall_inv_tail Hall) as Hrest.
  unfold holdsRows in Hrows.
  split; [|split].
  - unfold pendingRows at 1. rewrite Hp.
    destruct (Z.to_nat (getNumRows p - _curRowCounter s)) as [|k] eqn:Hk; [lia|].
    rewrite decodeRows_succ.
    unfold nextPartitionRow. rewrite Hp. cbn [_curRowCounter _partitions].
    rewrite (size_t_small (_curRowCounter s + 1)) by lia.
    destruct (Z.eqb_spec (_curRowCounter s + 1) (getNumRows p)) as [Elast | Emore].
    + assert (k = 0%nat) by lia. subst k.
      unfold removeFirstPartition. cbn [_partitions].
      unfold row_of, state_of, pendingRows. simpl.
      f_equal. destruct rest as [|q rest']; [reflexivity|].
      rewrite Z.sub_0_r. reflexivity.
    + unfold row_of, state_of, pendingRows. simpl.
      f_equal. f_equal. f_equal. lia.
  - unfold nextPartitionRow. rewrite Hp. cbn [_curRowCounter _partitions].
    rewrite (size_t_small (_curRowCounter s + 1)) by lia.
    destruct (Z.eqb_spec (_curRowCounter s + 1) (getNumRows p)) as [Elast | Emore].
    + unfold removeFirstPartition. cbn [_partitions].
      unfold state_of, partitionsReady. simpl. split; [exact Hrest|].
      destruct rest as [|q rest']; [exact I|].
      pose proof (Forall_inv Hrest) as Hq'. unfold holdsRows in Hq'. lia.
    + unfold state_of, partitionsReady. simpl. split; [exact Hall | lia].
  - unfold taggedRows. rewrite nextPartitionRow_pyobjects. reflexivity.
Qed.

(** What one call consumes: the first tagged row or the first pending row of
    the partitions, provided one of the queues is non-empty. *)
Lemma partitionsReady_step (s : ResultSet) :
  partitionsReady s ->
  (0 < length (taggedRows s) + length (pendingRows s))%nat ->
  partitionsReady (state_of (getNextRow s))
  /\ ((taggedRows s = row_of (getNextRow s) :: taggedRows (state_of (getNextRow s))
       /\ pendingRows (state_of (getNextRow s)) = pendingRows s)
      \/ (pendingRows s = row_of (getNextRow s) :: pendingRows (state_of (getNextRow s))
          /\ taggedRows (state_of (getNextRow s)) = taggedRows s)).
Proof.
  intros Hready Hsome.
  assert (Hpart : forall p rest, _partitions s = p :: rest ->
            getNextRow s = nextPartitionRow s ->
            partitionsReady (state_of (getNextRow s))
            /\ ((taggedRows s = row_of (getNextRow s) :: taggedRows (state_of (getNextRow s))
                 /\ pendingRows (state_of (getNextRow s)) = pendingRows s)
                \/ (pendingRows s
                    = row_of (getNextRow s) :: pendingRows (state_of (getNextRow s))
                    /\ taggedRows (state_of (getNextRow s)) = taggedRows s))).
  { intros p rest Hp E. rewrite E.
    destruct (partitionsReady_partition_step s p rest Hready Hp) as (A & B & D).
    split; [exact B|]. right. split; assumption. }
  destruct (_pyobjects s) as [|[i o] q] eqn:Hq.
  - destruct (_partitions s) as [|p rest] eqn:Hp.
    + exfalso. unfold taggedRows, pendingRows in Hsome. rewrite Hq, Hp in Hsome.
      simpl in Hsome. lia.
    + apply (Hpart p rest eq_refl). apply getNextRow_no_tagged. exact Hq.
  - assert (Htag : _partitions s = [] \/ i <= _totalRowCounter s ->
              partitionsReady (state_of (getNextRow s))
              /\ ((taggedRows s
                   = row_of (getNextRow s) :: taggedRows (state_of (getNextRow s))
                   /\ pendingRows (state_of (getNextRow s)) = pendingRows s)
                  \/ (pendingRows s
                      = row_of (getNextRow s) :: pendingRows (state_of (getNextRow s))
                      /\ taggedRows (state_of (getNextRow s)) = taggedRows s))).
    { intros Hdue. rewrite (getNextRow_tagged s i o q Hq Hdue).
      unfold row_of, state_of. cbn [fst snd]. split.
      - exact Hready.
      - left. split; [|reflexivity]. unfold taggedRows. rewrite Hq. reflexivity. }
    destruct (_partitions s) as [|p rest] eqn:Hp; [apply Htag; left; reflexivity|].
    destruct (Z.le_gt_cases i (_totalRowCounter s)) as [Hle | Hgt];
      [apply Htag; right; exact Hle|].
    apply (Hpart p rest eq_refl).
    apply (getNextRow_not_due s i o q p rest Hq Hp Hgt).
Qed.

Lemma pendingRows_none (s : ResultSet) :
  partitionsReady s -> pendingRows s = [] -> _partitions s = [].
Proof.
  intros Hready Hnone. destruct (_partitions s) as [|p rest] eqn:Hp; [reflexivity|].
  destruct (partitionsReady_pending s p rest Hready Hp) as (r & tl & E).
  rewrite E in Hnone. discriminate.
Qed.

Lemma merge_drained (n : nat) (s : ResultSet) :
  partitionsReady s ->
  n = (length (taggedRows s) + length (pendingRows s))%nat ->
  Interleave (taggedRows s) (pendingRows s) (rows_of (pull n s))
  /\ _partitions (cursor_of (pull n s)) = []
  /\ _pyobjects (cursor_of (pull n s)) = [].
Proof.
  revert s. induction n as [|n IH]; intros s Hready Hn.
  - destruct (taggedRows s) eqn:Ht; [|simpl in Hn; lia].
    destruct (pendingRows s) eqn:Hpd; [|simpl in Hn; lia].
    split; [constructor|]. split.
    + apply pendingRows_none; assumption.
    + unfold taggedRows in Ht. apply map_eq_nil in Ht. exact Ht.
  - destruct (partitionsReady_step s Hready) as [Hready' Hcase]; [lia|].
    rewrite pull_succ. unfold rows_of at 1, cursor_of at 1 2. cbn [fst snd].
    destruct Hcase as [[Et Ep] | [Ep Et]].
    + rewrite Et in Hn |- *. rewrite <- Ep in Hn |- *. simpl in Hn.
      destruct (IH (state_of (getNextRow s)) Hready') as (A & B & D); [lia|].
      split; [constructor; exact A | split; assumption].
    + rewrite Ep in Hn |- *. rewrite <- Et in Hn |- *. simpl in Hn.
      destruct (IH (state_of (getNextRow s)) Hready') as (A & B & D); [lia|].
      split; [constructor; exact A | split; assumption].
Qed.

Lemma mkResultSet_ready (schema : Schema) (partitions exceptions : list Partition)
    (pyobjects : list (Z * PyObject)) (maxRows : Z) :
  Forall holdsRows partitions ->
  partitionsReady (mkResultSet schema partitions exceptions pyobjects maxRows).
Proof.
  intros Hall. unfold partitionsReady. simpl. split; [exact Hall|].
  destruct partitions as [|p rest]; [exact I|].
  pose proof (Forall_inv Hall) as Hp. unfold holdsRows in Hp. lia.
Qed.

(** X1.  Draining a cursor whose partitions hold at least one row each: as
    many [getNextRow] calls as there are tagged rows and stored partition
    rows return every tagged row and every partition row exactly once, the
    tagged rows in queue order and the partition rows in stored order,
    shuffled together; afterwards both queues are empty.  No assumption is
    made on the indices of the tagged rows or on the budget. *)
Theorem merge_returns_every_row_once (schema : Schema)
    (partitions exceptions : list Partition) (pyobjects : list (Z * PyObject))
    (maxRows : Z) :
  Forall holdsRows partitions ->
  let s0 := mkResultSet schema partitions exceptions pyobjects maxRows in
  let tagged := map (fun t => pythonToRow (snd t)) pyobjects in
  let stored := concat (map (storedRows schema) partitions) in
  let n := (length tagged + length stored)%nat in
  Interleave tagged stored (rows_of (pull n s0))
  /\ _partitions (cursor_of (pull n s0)) = []
  /\ _pyobjects (cursor_of (pull n s0)) = [].
Proof.
  intros Hall s0 tagged stored n.
  pose proof (mkResultSet_ready schema partitions exceptions pyobjects maxRows Hall)
    as Hready.
  assert (Hp : pendingRows s0 = stored)
    by (unfold s0; rewrite pendingRows_fresh by reflexivity; reflexivity).
  pose proof (merge_drained n s0 Hready) as H.
  rewrite Hp in H. apply H. reflexivity.
Qed.

(** ** An empty partition queue *)

Lemma pull_tagged_only (n : nat) (s : ResultSet) :
  _partitions s = [] ->
  rows_of (pull n s)
  = firstn n (taggedRows s) ++ repeat Row_empty (n - length (taggedRows s)).
Proof.
  revert s. induction n as [|n IH]; intros s Hp; [reflexivity|].
  destruct (_pyobjects s) as [|[i o] q] eqn:Hq.
  - rewrite (pull_closed (S n) s Hp Hq). unfold taggedRows. rewrite Hq. reflexivity.
  - rewrite pull_succ. unfold rows_of at 1. cbn [fst].
    rewrite (getNextRow_tagged s i o q Hq (or_introl Hp)).
    unfold row_of, state_of. cbn [fst snd].
    rewrite IH by exact Hp.
    unfold taggedRows. rewrite Hq. reflexivity.
Qed.

(** X2.  With an empty partition queue [getNextRow] returns the tagged rows
    in queue order, whatever their indices are, and the empty row from then
    on. *)
Theorem tagged_rows_in_queue_order (s : ResultSet) (n : nat) :
  _partitions s = [] ->
  rows_of (pull n s)
  = firstn n (taggedRows s) ++ repeat Row_empty (n - length (taggedRows s)).
Proof.
  revert s. induction n as [|n IH]; intros s Hp; [reflexivity|].
  destruct (_pyobjects s) as [|[i o] q] eqn:Hq.
  - rewrite (pull_closed (S n) s Hp Hq). unfold taggedRows. rewrite Hq. reflexivity.
  - rewrite pull_succ. unfold rows_of at 1. cbn [fst].
    rewrite (getNextRow_tagged s i o q Hq (or_introl Hp)).
    unfold row_of, state_of. cbn [fst snd].
    rewrite IH by exact Hp.
    unfold taggedRows. rewrite Hq. reflexivity.
Qed.

(** ** The index of a tagged row is its position in the output *)

Lemma ascending_nth (lo : Z) (q : list (Z * PyObject)) (k : nat) i o :
  ascending lo q -> nth_error q k = Some (i, o) ->
  lo + Z.of_nat k <= i < 2 ^ 64 - 1.
Proof.
  revert lo k. induction q as [|[j oj] q IH]; intros lo k Hasc Hk.
  - destruct k; discriminate.
  - destruct Hasc as (Hlo & Hhi & Hrest). destruct k as [|k].
    + injection Hk as -> ->. lia.
    + simpl in Hk. specialize (IH (j + 1) k Hrest Hk). lia.
Qed.

Lemma tagged_position (n : nat) :
  forall (s : ResultSet) (k : nat) i o,
    partitionsReady s ->
    0 <= _totalRowCounter s ->
    ascending (_totalRowCounter s) (_pyobjects s) ->
    nth_error (_pyobjects s) k = Some (i, o) ->
    i - _totalRowCounter s - Z.of_nat k <= Z.of_nat (length (pendingRows s)) ->
    i - _totalRowCounter s < Z.of_nat n ->
    nth_error (rows_of (pull n s)) (Z.to_nat (i - _totalRowCounter s))
    = Some (pythonToRow o).
Proof.
  induction n as [|n IH]; intros s k i o Hready Ht Hasc Hk Hroom Hn.
  - pose proof (ascending_nth _ _ _ _ _ Hasc Hk). lia.
  - destruct (_pyobjects s) as [|[i1 o1] q] eqn:Hq; [destruct k; discriminate|].
    pose proof Hasc as (Hlo & Hhi & Hrest).
    assert (Hfrom : i1 + Z.of_nat k <= i < 2 ^ 64 - 1).
    { apply (ascending_nth i1 ((i1, o1) :: q) k i o); [|exact Hk].
      simpl. repeat split; try lia. exact Hrest. }
    rewrite pull_succ. unfold rows_of at 1. cbn [fst].
    assert (Hpart : forall p rest, _partitions s = p :: rest ->
              _totalRowCounter s < i1 ->
              nth_error
                (row_of (getNextRow s) :: rows_of (pull n (state_of (getNextRow s))))
                (Z.to_nat (i - _totalRowCounter s)) = Some (pythonToRow o)).
    { intros p rest Hp Hgt.
      rewrite (getNextRow_not_due s i1 o1 q p rest Hq Hp Hgt).
      destruct (partitionsReady_partition_step s p rest Hready Hp) as (Epend & Hready' & _).
      pose proof (nextPartitionRow_total s p rest Hp) as Etot.
      rewrite size_t_small in Etot by lia.
      pose proof (nextPartitionRow_pyobjects s) as Eq. rewrite Hq in Eq.
      replace (Z.to_nat (i - _totalRowCounter s))
        with (S (Z.to_nat (i - _totalRowCounter (state_of (nextPartitionRow s)))))
        by (rewrite Etot; lia).
      cbn [nth_error]. apply (IH _ k).
      - exact Hready'.
      - rewrite Etot. lia.
      - rewrite Etot, Eq. simpl. repeat split; try lia. exact Hrest.
      - rewrite Eq. exact Hk.
      - rewrite Etot. rewrite Epend in Hroom. simpl length in Hroom. lia.
      - rewrite Etot. lia. }
    assert (Htag : i1 = _totalRowCounter s ->
              nth_error
                (row_of (getNextRow s) :: rows_of (pull n (state_of (getNextRow s))))
                (Z.to_nat (i - _totalRowCounter s)) = Some (pythonToRow o)).
    { intros E1.
      assert (Hdue : _partitions s = [] \/ i1 <= _totalRowCounter s) by (right; lia).
      pose proof (getNextRow_tagged s i1 o1 q Hq Hdue) as Eg.
      pose proof (tagged_emission_total s i1 o1 q Hq Hdue) as Etot.
      assert (Hnc : nextCarries i1 q = false).
      { destruct q as [|[j oj] q']; [reflexivity|]. simpl.
        destruct Hrest as (Hj & _). apply Z.eqb_neq. lia. }
      rewrite Hnc, size_t_small in Etot by lia.
      destruct k as [|k].
      - injection Hk as Ei Eo. subst i o. rewrite Eg.
        replace (Z.to_nat (i1 - _totalRowCounter s)) with 0%nat by lia.
        reflexivity.
      - simpl in Hk.
        replace (Z.to_nat (i - _totalRowCounter s))
          with (S (Z.to_nat (i - _totalRowCounter (state_of (getNextRow s)))))
          by (rewrite Etot; lia).
        cbn [nth_error]. apply (IH _ k).
        + rewrite Eg. exact Hready.
        + rewrite Etot. lia.
        + rewrite Etot. rewrite Eg. unfold state_of. cbn [fst snd _pyobjects].
          rewrite <- E1. exact Hrest.
        + rewrite Eg. exact Hk.
        + rewrite Etot. replace (pendingRows (state_of (getNextRow s)))
            with (pendingRows s) by (rewrite Eg; reflexivity). lia.
        + rewrite Etot. lia. }
    destruct (Z.le_gt_cases i1 (_totalRowCounter s)) as [Hle | Hgt].
    + apply Htag. lia.
    + destruct (_partitions s) as [|p rest] eqn:Hp.
      * exfalso. unfold pendingRows in Hroom. rewrite Hp in Hroom.
        simpl in Hroom. lia.
      * apply (Hpart p rest eq_refl Hgt).
Qed.

(** X3.  For a cursor constructed with partitions that hold at least one row
    each and with tagged rows whose indices are strictly increasing: the
    tagged row of index [i] is the row returned by call number [i + 1], that
    is, it stands at position [i] of the output, provided the partitions
    store enough rows to fill the positions before it ([i - k] rows for the
    tagged row at place [k] of the queue). *)
Theorem tagged_row_at_its_index (schema : Schema)
    (partitions exceptions : list Partition) (pyobjects : list (Z * PyObject))
    (maxRows : Z) (n k : nat) i o :
  Forall holdsRows partitions ->
  ascending 0 pyobjects ->
  nth_error pyobjects k = Some (i, o) ->
  i - Z.of_nat k
  <= Z.of_nat (length (concat (map (storedRows schema) partitions))) ->
  i < Z.of_nat n ->
  nth_error
    (rows_of (pull n (mkResultSet schema partitions exceptions pyobjects maxRows)))
    (Z.to_nat i)
  = Some (pythonToRow o).
Proof.
  intros Hall Hasc Hk Hroom Hn.
  set (s0 := mkResultSet schema partitions exceptions pyobjects maxRows).
  assert (Hp : pendingRows s0 = concat (map (storedRows schema) partitions))
    by (unfold s0; rewrite pendingRows_fresh by reflexivity; reflexivity).
  pose proof (tagged_position n s0 k i o
                (mkResultSet_ready schema partitions exceptions pyobjects maxRows Hall))
    as H.
  change (_totalRowCounter s0) with 0 in H. rewrite Z.sub_0_r in H.
  apply H; try assumption.
  - lia.
  - rewrite Hp. exact Hroom.
Qed.

(** ** The loop guarded by [hasNextRow] and the budget *)

Lemma pull_length (n : nat) (s : ResultSet) : length (rows_of (pull n s)) = n.
Proof.
  revert s. induction n as [|n IH]; intros s; [reflexivity|].
  rewrite pull_succ. unfold rows_of at 1. cbn [fst length]. rewrite IH. reflexivity.
Qed.

(** On a cursor whose partitions hold rows [hasNextRow] tells exactly
    whether the budget leaves room and a row is queued. *)
Lemma hasNextRow_available (s : ResultSet) :
  partitionsReady s ->
  hasNextRow s = true <->
  _rowsRetrieved s < _maxRows s
  /\ (0 < length (taggedRows s) + length (pendingRows s))%nat.
Proof.
  intros Hready. unfold hasNextRow. rewrite Z.geb_leb.
  destruct (Z.leb_spec (_maxRows s) (_rowsRetrieved s)) as [Hge | Hlt].
  - split; [discriminate | intros [H _]; lia].
  - destruct (_partitions s) as [|p ps] eqn:Hp, (_pyobjects s) as [|t ts] eqn:Hq.
    + split; [discriminate|]. intros [_ H].
      unfold taggedRows, pendingRows in H. rewrite Hp, Hq in H. simpl in H. lia.
    + split; [|reflexivity]. intros _. split; [exact Hlt|].
      unfold taggedRows. rewrite Hq. simpl. lia.
    + destruct (partitionsReady_pending s p ps Hready Hp) as (r & tl & E).
      destruct Hready as (_ & Hcur). rewrite Hp in Hcur.
      split.
      * intros _. split; [exact Hlt|]. rewrite E. simpl. lia.
      * intros _. apply Z.ltb_lt. lia.
    + split; [|reflexivity]. intros _. split; [exact Hlt|].
      unfold taggedRows. rewrite Hq. simpl. lia.
Qed.

Lemma drain_ready (fuel : nat) :
  forall s : ResultSet,
    partitionsReady s ->
    0 <= _rowsRetrieved s <= _maxRows s ->
    _maxRows s < 2 ^ 64 ->
    (Nat.min (Z.to_nat (_maxRows s - _rowsRetrieved s))
       (length (taggedRows s) + length (pendingRows s)) <= fuel)%nat ->
    fst (drain fuel s)
    = rows_of (pull (Nat.min (Z.to_nat (_maxRows s - _rowsRetrieved s))
                       (length (taggedRows s) + length (pendingRows s))) s).
Proof.
  induction fuel as [|fuel IH]; intros s Hready Hr Hmax Hfuel.
  - replace (Nat.min _ _) with 0%nat by lia. reflexivity.
  - simpl. destruct (hasNextRow s) eqn:Hnext.
    + apply (hasNextRow_available s Hready) in Hnext. destruct Hnext as [Hlt Hsome].
      destruct (partitionsReady_step s Hready Hsome) as [Hready' Hcase].
      assert (Hne : empty (_partitions s) && empty (_pyobjects s) = false).
      { destruct (_partitions s) eqn:Hp, (_pyobjects s) eqn:Hq; try reflexivity.
        unfold taggedRows, pendingRows in Hsome. rewrite Hp, Hq in Hsome.
        simpl in Hsome. lia. }
      pose proof (getNextRow_counts s Hne) as Ecount.
      rewrite size_t_small in Ecount by lia.
      pose proof (getNextRow_maxRows s) as Emax.
      assert (Hless : (length (taggedRows (state_of (getNextRow s)))
                       + length (pendingRows (state_of (getNextRow s)))
                       = length (taggedRows s) + length (pendingRows s) - 1)%nat).
      { destruct Hcase as [[Et Ep] | [Ep Et]].
        - pose proof (f_equal (@length _) Et) as L. simpl in L. rewrite Ep. lia.
        - pose proof (f_equal (@length _) Ep) as L. simpl in L. rewrite Et. lia. }
      replace (Nat.min (Z.to_nat (_maxRows s - _rowsRetrieved s))
                 (length (taggedRows s) + length (pendingRows s)))
        with (S (Nat.min (Z.to_nat (_maxRows (state_of (getNextRow s))
                                    - _rowsRetrieved (state_of (getNextRow s))))
                   (length (taggedRows (state_of (getNextRow s)))
                    + length (pendingRows (state_of (getNextRow s))))))
        by (rewrite Hless, Emax, Ecount; lia).
      rewrite pull_succ. unfold rows_of at 1. cbn [fst]. f_equal.
      apply IH.
      * exact Hready'.
      * rewrite Emax, Ecount. lia.
      * rewrite Emax. exact Hmax.
      * rewrite Hless, Emax, Ecount. lia.
    + assert (Hzero : Nat.min (Z.to_nat (_maxRows s - _rowsRetrieved s))
                        (length (taggedRows s) + length (pendingRows s)) = 0%nat).
      { destruct (Z.le_gt_cases (_maxRows s) (_rowsRetrieved s)) as [Hge | Hlt]; [lia|].
        destruct (Nat.eq_dec (length (taggedRows s) + length (pendingRows s)) 0)
          as [E | E]; [lia|].
        exfalso. assert (Htrue : hasNextRow s = true).
        { apply (hasNextRow_available s Hready). split; lia. }
        congruence. }
      rewrite Hzero. reflexivity.
Qed.

(** X4.  The consumer loop [while (hasNextRow()) getNextRow()] on a cursor
    constructed with partitions that hold at least one row each returns
    exactly [min (budget, queued rows)] rows, where the budget is [maxRows]
    (a negative [maxRows] standing for [INT64_MAX]) and the queued rows are
    the tagged rows plus the stored partition rows; and these are the same
    rows, in the same order, as that many unguarded [getNextRow] calls
    return. *)
Theorem guarded_loop_stops_at_budget (schema : Schema)
    (partitions exceptions : list Partition) (pyobjects : list (Z * PyObject))
    (maxRows : Z) (fuel : nat) :
  Forall holdsRows partitions ->
  int64_range maxRows ->
  let s0 := mkResultSet schema partitions exceptions pyobjects maxRows in
  let budget := if maxRows <? 0 then INT64_MAX else maxRows in
  let queued :=
    (length pyobjects + length (concat (map (storedRows schema) partitions)))%nat in
  let k := Nat.min (Z.to_nat budget) queued in
  (k <= fuel)%nat ->
  fst (drain fuel s0) = rows_of (pull k s0)
  /\ length (fst (drain fuel s0)) = k.
Proof.
  intros Hall Hrange s0 budget queued k Hfuel.
  pose proof (mkResultSet_ready schema partitions exceptions pyobjects maxRows Hall)
    as Hready.
  assert (Hp : pendingRows s0 = concat (map (storedRows schema) partitions))
    by (unfold s0; rewrite pendingRows_fresh by reflexivity; reflexivity).
  assert (Ht : length (taggedRows s0) = length pyobjects)
    by (unfold taggedRows, s0; simpl; apply length_map).
  assert (Hb : 0 <= budget < 2 ^ 63).
  { unfold budget, int64_range, INT64_MAX in *.
    destruct (Z.ltb_spec maxRows 0); lia. }
  assert (E : fst (drain fuel s0) = rows_of (pull k s0)).
  { pose proof (drain_ready fuel s0 Hready) as H.
    rewrite Hp, Ht in H.
    change (_maxRows s0) with budget in H. change (_rowsRetrieved s0) with 0 in H.
    rewrite Z.sub_0_r in H. fold queued in H. fold k in H.
    apply H; [lia | lia | exact Hfuel]. }
  split; [exact E|]. rewrite E. apply pull_length.
Qed.

(** ** The bulk path *)

Lemma pullPartitions_succ (n : nat) (s : ResultSet) :
  pullPartitions (S n) s
  = (fst (getNextPartition s) :: fst (pullPartitions n (snd (getNextPartition s))),
     snd (pullPartitions n (snd (getNextPartition s)))).
Proof. reflexivity. Qed.

Lemma size_t_idem (x : Z) : size_t (size_t x) = size_t x.
Proof. unfold size_t. apply Z.mod_mod. discriminate. Qed.

Lemma size_t_add_l (x y : Z) : size_t (size_t x + y) = size_t (x + y).
Proof. unfold size_t. apply Zplus_mod_idemp_l. Qed.

Lemma pullPartitions_spec (n : nat) :
  forall s : ResultSet,
    _curRowCounter s = 0 -> _byteCounter s = 0 ->
    size_t (_rowsRetrieved s) = _rowsRetrieved s ->
    fst (pullPartitions n s)
    = map Some (firstn n (_partitions s)) ++ repeat None (n - length (_partitions s))
    /\ _partitions (snd (pullPartitions n s)) = skipn n (_partitions s)
    /\ _pyobjects (snd (pullPartitions n s)) = _pyobjects s
    /\ _exceptions (snd (pullPartitions n s)) = _exceptions s
    /\ _totalRowCounter (snd (pullPartitions n s)) = _totalRowCounter s
    /\ _maxRows (snd (pullPartitions n s)) = _maxRows s
    /\ _rowsRetrieved (snd (pullPartitions n s))
       = size_t (_rowsRetrieved s + rowsIn (firstn n (_partitions s)))
    /\ _curRowCounter (snd (pullPartitions n s)) = 0
    /\ _byteCounter (snd (pullPartitions n s)) = 0.
Proof.
  induction n as [|n IH]; intros s Hc Hb Hr.
  - simpl. rewrite Z.add_0_r, Hr. repeat split; assumption.
  - rewrite pullPartitions_succ. cbn [fst snd].
    unfold getNextPartition. destruct (_partitions s) as [|p ps] eqn:Hp.
    + cbn [fst snd]. destruct (IH s Hc Hb Hr) as (A & B & D & E & F & G & H & I & J).
      rewrite Hp in A, B, H. rewrite firstn_nil in A, H. rewrite skipn_nil in B.
      simpl in A, H. rewrite Nat.sub_0_r in A.
      rewrite A, B, D, E, F, G, H, I, J. simpl. repeat split; reflexivity.
    + cbn [fst snd].
      match goal with
      | |- context [pullPartitions n ?st] =>
          destruct (IH st eq_refl eq_refl) as (A & B & D & E & F & G & H & I & J);
          [cbn [_rowsRetrieved]; apply size_t_idem|]
      end.
      cbn [_partitions _pyobjects _exceptions _totalRowCounter _maxRows _rowsRetrieved]
        in A, B, D, E, F, G, H.
      rewrite A, B, D, E, F, G, H, I, J. simpl.
      rewrite size_t_add_l, Z.add_assoc. repeat split; reflexivity.
Qed.

(** X5.  The bulk path on a freshly constructed cursor: [n] calls of
    [getNextPartition] hand out the first [n] partitions in queue order and
    [nullptr] once the queue is empty; the queue keeps the remaining
    partitions, [_rowsRetrieved] is the sum of the row counts of the
    partitions handed out (modulo [2^64]), and the tagged-row queue, the
    exception list, [_totalRowCounter] and the budget are untouched: the bulk
    path neither looks at the tagged rows nor at the budget. *)
Theorem bulk_path_in_queue_order (schema : Schema)
    (partitions exceptions : list Partition) (pyobjects : list (Z * PyObject))
    (maxRows : Z) (n : nat) :
  let r := pullPartitions n (mkResultSet schema partitions exceptions pyobjects maxRows) in
  fst r = map Some (firstn n partitions) ++ repeat None (n - length partitions)
  /\ _partitions (snd r) = skipn n partitions
  /\ _pyobjects (snd r) = pyobjects
  /\ _exceptions (snd r) = exceptions
  /\ _totalRowCounter (snd r) = 0
  /\ _maxRows (snd r) = (if maxRows <? 0 then INT64_MAX else maxRows)
  /\ _rowsRetrieved (snd r) = size_t (rowsIn (firstn n partitions))
  /\ _curRowCounter (snd r) = 0
  /\ _byteCounter (snd r) = 0.
Proof.
  intros r.
  exact (pullPartitions_spec n
           (mkResultSet schema partitions exceptions pyobjects maxRows)
           eq_refl eq_refl eq_refl).
Qed.

Lemma pull_succ_cursor (n : nat) (s : ResultSet) :
  cursor_of (pull (S n) s) = cursor_of (pull n (state_of (getNextRow s))).
Proof. reflexivity. Qed.

(** Rows pulled from inside the front partition. *)
Lemma pull_inside_front (j : nat) :
  forall (s : ResultSet) p rest,
    _pyobjects s = [] -> _partitions s = p :: rest ->
    0 <= _curRowCounter s ->
    _curRowCounter s + Z.of_nat j < getNumRows p -> getNumRows p < 2 ^ 64 ->
    _partitions (cursor_of (pull j s)) = p :: rest
    /\ _pyobjects (cursor_of (pull j s)) = []
    /\ _curRowCounter (cursor_of (pull j s)) = _curRowCounter s + Z.of_nat j
    /\ _rowsRetrieved (cursor_of (pull j s))
       = (if Nat.eqb j 0 then _rowsRetrieved s
          else size_t (_rowsRetrieved s + Z.of_nat j)).
Proof.
  induction j as [|j IH]; intros s p rest Hq Hp Hc Hj Hn.
  - simpl. rewrite Z.add_0_r. repeat split; assumption.
  - rewrite pull_succ_cursor.
    rewrite (getNextRow_no_tagged s Hq).
    assert (Est : state_of (nextPartitionRow s)
                  = {| _partitions := p :: rest;
                       _exceptions := _exceptions s;
                       _pyobjects := [];
                       _curRowCounter := _curRowCounter s + 1;
                       _byteCounter :=
                         size_t (_byteCounter s
                                 + serializedLength
                                     (fromMemory (_schema s)
                                        (skipn (Z.to_nat (_byteCounter s)) (memory p))
                                        (size_t (capacity p - _byteCounter s))));
                       _rowsRetrieved := size_t (_rowsRetrieved s + 1);
                       _totalRowCounter := size_t (_totalRowCounter s + 1);
                       _maxRows := _maxRows s;
                       _schema := _schema s |}).
    { unfold nextPartitionRow. rewrite Hp, Hq. cbn [_curRowCounter].
      rewrite (size_t_small (_curRowCounter s + 1)) by lia.
      destruct (Z.eqb_spec (_curRowCounter s + 1) (getNumRows p)); [lia|].
      reflexivity. }
    rewrite Est.
    match goal with
    | |- context [pull j ?st] =>
        destruct (IH st p rest eq_refl eq_refl) as (A & B & D & E);
        [cbn [_curRowCounter]; lia | cbn [_curRowCounter]; lia | exact Hn |]
    end.
    cbn [_curRowCounter _rowsRetrieved] in D, E.
    rewrite A, B, D, E. repeat split; try lia.
    simpl Nat.eqb. cbv iota.
    destruct j as [|j]; simpl Nat.eqb; cbv iota.
    + reflexivity.
    + rewrite size_t_add_l. f_equal. lia.
Qed.

(** X6.  Mixing the two paths: after [j] rows were pulled with [getNextRow]
    from inside the front partition ([j] below its row count), a
    [getNextPartition] call hands out that same partition, pops it, sets
    both offsets to zero and adds the partition's full row count to
    [_rowsRetrieved], so the [j] rows already pulled are counted twice. *)
Theorem bulk_after_rows_counts_twice (schema : Schema) p
    (partitions exceptions : list Partition) (maxRows : Z) (j : nat) :
  Z.of_nat j < getNumRows p -> getNumRows p < 2 ^ 64 ->
  let s := cursor_of (pull j (mkResultSet schema (p :: partitions) exceptions [] maxRows)) in
  _rowsRetrieved s = Z.of_nat j
  /\ fst (getNextPartition s) = Some p
  /\ _partitions (snd (getNextPartition s)) = partitions
  /\ _curRowCounter (snd (getNextPartition s)) = 0
  /\ _byteCounter (snd (getNextPartition s)) = 0
  /\ _rowsRetrieved (snd (getNextPartition s)) = size_t (Z.of_nat j + getNumRows p).
Proof.
  intros Hj Hn s.
  destruct (pull_inside_front j
              (mkResultSet schema (p :: partitions) exceptions [] maxRows)
              p partitions eq_refl eq_refl) as (A & B & D & E);
    [simpl; lia | simpl; lia | exact Hn |].
  fold s in A, B, D, E. cbn [_rowsRetrieved mkResultSet] in E.
  assert (Er : _rowsRetrieved s = Z.of_nat j).
  { rewrite E. destruct j as [|j]; simpl Nat.eqb; cbv iota; [reflexivity|].
    apply size_t_small. lia. }
  split; [exact Er|].
  unfold getNextPartition. rewrite A. cbn [fst snd _partitions _curRowCounter
    _byteCounter _rowsRetrieved]. rewrite Er. repeat split.
Qed.

(** X7.  Whenever [hasNextPartition] answers [true], [hasNextRow] answers
    [true] as well and [getNextPartition] returns a partition, not
    [nullptr]. *)
Theorem hasNextPartition_implies_hasNextRow (s : ResultSet) :
  hasNextPartition s = true ->
  hasNextRow s = true /\ fst (getNextPartition s) <> None.
Proof.
  unfold hasNextPartition, hasNextRow, getNextPartition.
  destruct (_rowsRetrieved s >=? _maxRows s); [discriminate|].
  destruct (_partitions s) as [|p ps]; [discriminate|].
  intros H. split; [|discriminate].
  destruct (_pyobjects s); [exact H | reflexivity].
Qed.

(** ** After [clear] *)

Lemma cleared_step (o : Op) (s : ResultSet) :
  _maxRows s = 0 -> 0 <= _rowsRetrieved s -> _partitions s = [] ->
  (_maxRows (fst (step o s)) = 0
   /\ 0 <= _rowsRetrieved (fst (step o s))
   /\ _partitions (fst (step o s)) = [])
  /\ forall a, ~ In (PartitionLock a) (snd (step o s)).
Proof.
  intros Hm Hr Hp.
  assert (Hnone : forall (l : list Partition) a,
            ~ In (PartitionLock a) (map (fun p => PartitionInvalidate (addr p)) l)).
  { intros l a H. apply in_map_iff in H. destruct H as (x & Hx & _). discriminate. }
  destruct o; simpl; try (repeat split; try assumption; intros a []).
  - destruct (getNextRow_cases s)
      as [_ [[Hp' Hev] | [[Hp' Hev] | [(p & ps & E & _) | (p & ps & E & _)]]]];
      try congruence;
      rewrite getNextRow_maxRows, Hp', Hev;
      (split; [|intros a H; simpl in H; intuition discriminate]);
      repeat split; try assumption;
      destruct (getNextRow_rowsRetrieved s) as [E | E]; rewrite E;
        try exact Hr; apply size_t_range.
  - unfold getNextPartition. rewrite Hp. simpl. repeat split; try assumption.
    intros a [].
  - rewrite Hp. simpl. split; [repeat split; lia | apply Hnone].
Qed.

Lemma cleared_run (ops : list Op) (s : ResultSet) :
  _maxRows s = 0 -> 0 <= _rowsRetrieved s -> _partitions s = [] ->
  (_maxRows (fst (run ops s)) = 0
   /\ 0 <= _rowsRetrieved (fst (run ops s))
   /\ _partitions (fst (run ops s)) = [])
  /\ forall a, ~ In (PartitionLock a) (snd (run ops s)).
Proof.
  revert s. induction ops as [|o ops IH]; intros s Hm Hr Hp.
  - simpl. repeat split; try assumption. intros a [].
  - rewrite run_cons. cbn [fst snd].
    destruct (cleared_step o s Hm Hr Hp) as ((A & B & D) & E).
    destruct (IH _ A B D) as (F & G).
    split; [exact F|]. intros a H. apply in_app_or in H.
    destruct H as [H | H]; [exact (E a H) | exact (G a H)].
Qed.

(** X8.  [clear] is final: after it, whatever operations follow,
    [hasNextRow] and [hasNextPartition] answer [false], the partition queue
    stays empty and no partition is locked for reading any more.  The tagged
    rows that were queued are still there, though: [getNextRow] calls made
    after [clear] return them in queue order, then the empty row. *)
Theorem cleared_cursor_is_exhausted (s : ResultSet) (ops : list Op) (n : nat) :
  let s' := fst (run ops (fst (clear s))) in
  hasNextRow s' = false
  /\ hasNextPartition s' = false
  /\ _partitions s' = []
  /\ (forall a, ~ In (PartitionLock a) (snd (run ops (fst (clear s)))))
  /\ rows_of (pull n (fst (clear s)))
     = firstn n (taggedRows s) ++ repeat Row_empty (n - length (taggedRows s)).
Proof.
  intros s'.
  destruct (cleared_run ops (fst (clear s)) eq_refl) as ((A & B & D) & E);
    [simpl; lia | reflexivity |].
  fold s' in A, B, D.
  destruct (budget_used_up s') as [H1 H2]; [lia|].
  repeat split; try assumption.
  apply (pull_tagged_only n (fst (clear s))). reflexivity.
Qed.

(** ** The exception list *)

Lemma clears_cons (o : Op) (ops : list Op) :
  clears (o :: ops)
  = ((match o with OpClear => 1 | _ => 0 end) + clears ops)%nat.
Proof. unfold clears. destruct o; reflexivity. Qed.

Lemma exception_invalidations (parts : list Partition) (e : Partition) (ops : list Op) :
  forall s : ResultSet,
    ~ In (addr e) (map addr parts) ->
    incl (map addr (_partitions s)) (map addr parts) ->
    count_occ Z.eq_dec (map addr (_exceptions s)) (addr e) = 1%nat ->
    invalidations (addr e) (snd (run ops s)) = clears ops.
Proof.
  induction ops as [|o ops IH]; intros s Hout Hincl Hexc; [reflexivity|].
  rewrite run_cons, clears_cons. cbn [snd]. rewrite invalidations_app.
  assert (Hstep : invalidations (addr e) (snd (step o s))
                  = match o with OpClear => 1%nat | _ => 0%nat end
                  /\ incl (map addr (_partitions (fst (step o s)))) (map addr parts)).
  { destruct o; simpl; try (split; [reflexivity | exact Hincl]).
    - destruct (getNextRow_cases s)
        as [_ [[Hp Hev] | [[Hp Hev] | [(p & ps & Hp & Hp' & Hev) | (p & ps & Hp & Hp' & Hev)]]]];
        rewrite Hev.
      + rewrite Hp. split; [reflexivity | exact Hincl].
      + rewrite Hp. split; [reflexivity | exact Hincl].
      + rewrite Hp', <- Hp. split; [|exact Hincl].
        rewrite !invalidations_skip by (intros; discriminate). reflexivity.
      + rewrite Hp', invalidations_retire. rewrite Hp in Hincl. split.
        * destruct (Z.eq_dec (addr p) (addr e)) as [E | E]; [|reflexivity].
          exfalso. apply Hout. rewrite <- E. apply Hincl. left. reflexivity.
        * intros a Ha. apply Hincl. right. exact Ha.
    - unfold getNextPartition. destruct (_partitions s) as [|p ps] eqn:Hp; simpl.
      + rewrite Hp. split; [reflexivity | exact Hincl].
      + split; [reflexivity|]. intros a Ha. apply Hincl. right. exact Ha.
    - split; [|intros a []].
      rewrite invalidations_app, !invalidations_map, Hexc.
      assert (Hq : count_occ Z.eq_dec (map addr (_partitions s)) (addr e) = 0%nat).
      { apply count_occ_not_In. intros H. apply Hout. apply Hincl. exact H. }
      rewrite Hq. reflexivity. }
  destruct Hstep as [Ev Hincl']. rewrite Ev. f_equal.
  apply IH; [exact Hout | exact Hincl' |].
  rewrite step_exceptions. exact Hexc.
Qed.

(** X9.  For a cursor constructed from pairwise distinct partitions, the
    partitions of the exception list are invalidated by [clear] and by
    nothing else, once per call: after any sequence of operations each of
    them has been invalidated as many times as [clear] was called (so twice
    when [clear] is called twice). *)
Theorem exceptions_invalidated_per_clear (schema : Schema)
    (partitions exceptions : list Partition) (pyobjects : list (Z * PyObject))
    (maxRows : Z) (ops : list Op) (e : Partition) :
  NoDup (map addr (partitions ++ exceptions)) ->
  In e exceptions ->
  invalidations (addr e)
    (snd (run ops (mkResultSet schema partitions exceptions pyobjects maxRows)))
  = clears ops.
Proof.
  intros Hnd Hin. rewrite map_app in Hnd.
  apply (exception_invalidations partitions e ops).
  - intros H. apply (NoDup_app_disjoint _ _ _ Hnd H). apply in_map. exact Hin.
  - simpl. intros a Ha. exact Ha.
  - simpl. apply NoDup_count_occ'.
    + apply (NoDup_app_remove_l _ _ Hnd).
    + apply in_map. exact Hin.
Qed.

(** ** [rowCount] *)

Lemma rowsIn_nonneg (ps : list Partition) : Forall holdsRows ps -> 0 <= rowsIn ps.
Proof.
  induction 1 as [|p ps Hp _ IH]; simpl; [lia|]. unfold holdsRows in Hp. lia.
Qed.

Lemma fold_rows (ps : list Partition) :
  forall acc,
    Forall holdsRows ps -> 0 <= acc -> acc + rowsIn ps < 2 ^ 64 ->
    fold_left (fun count partition => size_t (count + getNumRows partition)) ps acc
    = acc + rowsIn ps.
Proof.
  induction ps as [|p ps IH]; intros acc Hall Hacc Hfit; simpl; [lia|].
  pose proof (Forall_inv Hall) as Hp. pose proof (Forall_inv_tail Hall) as Hps.
  pose proof (rowsIn_nonneg ps Hps). unfold holdsRows in Hp. simpl in Hfit.
  rewrite size_t_small by lia. rewrite IH by (try assumption; lia). lia.
Qed.

Lemma stored_length (schema : Schema) (ps : list Partition) :
  Forall holdsRows ps ->
  Z.of_nat (length (concat (map (storedRows schema) ps))) = rowsIn ps.
Proof.
  induction 1 as [|p ps Hp _ IH]; simpl; [reflexivity|].
  rewrite length_app, Nat2Z.inj_add, IH. unfold storedRows.
  rewrite decodeRows_length. unfold holdsRows in Hp. lia.
Qed.

(** X10.  [rowCount] is not the number of rows still to come.  On a cursor
    whose partitions hold at least one row each, and as long as the sum does
    not overflow, it is the number of queued tagged rows plus the number of
    partition rows not yet returned plus the rows already read from the
    front partition: a row read from a partition keeps being counted until
    the partition is retired. *)
Theorem rowCount_counts_rows_read_of_front (s : ResultSet) :
  partitionsReady s ->
  rowsIn (_partitions s) + Z.of_nat (length (_pyobjects s)) < 2 ^ 64 ->
  rowCount s
  = Z.of_nat (length (taggedRows s)) + Z.of_nat (length (pendingRows s))
    + match _partitions s with
      | [] => 0
      | _ :: _ => _curRowCounter s
      end.
Proof.
  intros (Hall & Hcur) Hfit. unfold rowCount.
  pose proof (rowsIn_nonneg _ Hall) as Hnn.
  rewrite fold_rows by (try assumption; lia). rewrite Z.add_0_l.
  rewrite size_t_small by lia.
  unfold taggedRows, pendingRows. rewrite length_map.
  destruct (_partitions s) as [|p rest]; [simpl; lia|].
  pose proof (Forall_inv Hall) as Hp. unfold holdsRows in Hp.
  rewrite length_app, decodeRows_length, Nat2Z.inj_add.
  rewrite (stored_length _ rest (Forall_inv_tail Hall)). simpl rowsIn. lia.
Qed.

(** ** The two row counters *)

Lemma getNextRow_counters (s : ResultSet) :
  (_rowsRetrieved (state_of (getNextRow s)) = _rowsRetrieved s
   /\ _totalRowCounter (state_of (getNextRow s)) = _totalRowCounter s)
  \/ (_rowsRetrieved (state_of (getNextRow s)) = size_t (_rowsRetrieved s + 1)
      /\ (_totalRowCounter (state_of (getNextRow s)) = _totalRowCounter s
          \/ _totalRowCounter (state_of (getNextRow s))
             = size_t (_totalRowCounter s + 1))).
Proof.
  unfold getNextRow, nextPartitionRow, removeFirstPartition, state_of, empty.
  destruct (_pyobjects s) as [|[i o] [|[j oj] q]], (_partitions s) as [|p ps]; simpl;
    repeat match goal with
           | |- context [if ?b then _ else _] => destruct b; simpl
           end;
    first [ left; split; reflexivity
          | right; split; [reflexivity|]; first [left; reflexivity | right; reflexivity] ].
Qed.

Lemma pull_counters (n : nat) :
  forall s : ResultSet,
    0 <= _totalRowCounter s <= _rowsRetrieved s ->
    _rowsRetrieved s + Z.of_nat n < 2 ^ 64 ->
    0 <= _totalRowCounter (cursor_of (pull n s))
      <= _rowsRetrieved (cursor_of (pull n s))
    /\ _rowsRetrieved (cursor_of (pull n s)) <= _rowsRetrieved s + Z.of_nat n.
Proof.
  induction n as [|n IH]; intros s Hinv Hfit.
  - change (cursor_of (pull 0 s)) with s. lia.
  - rewrite pull_succ_cursor.
    assert (Hstep : 0 <= _totalRowCounter (state_of (getNextRow s))
                      <= _rowsRetrieved (state_of (getNextRow s))
                    /\ _rowsRetrieved (state_of (getNextRow s)) <= _rowsRetrieved s + 1).
    { destruct (getNextRow_counters s) as [[Er Et] | [Er Et]].
      - rewrite Er, Et. lia.
      - rewrite size_t_small in Er by lia. rewrite Er.
        destruct Et as [Et | Et]; rewrite Et; [lia|]. rewrite size_t_small; lia. }
    destruct Hstep as [H1 H2].
    destruct (IH (state_of (getNextRow s)) H1) as [A B]; [lia|].
    split; [exact A | lia].
Qed.

(** X11.  Starting from a freshly constructed cursor, after [n] calls of
    [getNextRow] (fewer than [2^64]) the logical position
    [_totalRowCounter] is never ahead of the number of rows returned:
    [0 <= _totalRowCounter <= _rowsRetrieved <= n]. *)
Theorem position_never_ahead_of_count (schema : Schema)
    (partitions exceptions : list Partition) (pyobjects : list (Z * PyObject))
    (maxRows : Z) (n : nat) :
  Z.of_nat n < 2 ^ 64 ->
  let s := cursor_of (pull n (mkResultSet schema partitions exceptions pyobjects maxRows)) in
  0 <= _totalRowCounter s <= _rowsRetrieved s /\ _rowsRetrieved s <= Z.of_nat n.
Proof.
  intros Hn s.
  destruct (pull_counters n (mkResultSet schema partitions exceptions pyobjects maxRows))
    as [A B]; simpl; try lia.
  fold s in A, B. simpl in B. lia.
Qed.

(** ** A front partition without rows *)

Lemma pull_empty_front (j : nat) :
  forall (s : ResultSet) p rest,
    _pyobjects s = [] -> _partitions s = p :: rest ->
    getNumRows p = 0 -> 0 <= _curRowCounter s ->
    _curRowCounter s + Z.of_nat j < 2 ^ 64 ->
    _partitions (cursor_of (pull j s)) = p :: rest
    /\ _pyobjects (cursor_of (pull j s)) = []
    /\ _curRowCounter (cursor_of (pull j s)) = _curRowCounter s + Z.of_nat j.
Proof.
  induction j as [|j IH]; intros s p rest Hq Hp Hn Hc Hj.
  - change (cursor_of (pull 0 s)) with s. rewrite Z.add_0_r. repeat split; assumption.
  - rewrite pull_succ_cursor, (getNextRow_no_tagged s Hq).
    assert (Est : _partitions (state_of (nextPartitionRow s)) = p :: rest
                  /\ _pyobjects (state_of (nextPartitionRow s)) = []
                  /\ _curRowCounter (state_of (nextPartitionRow s))
                     = _curRowCounter s + 1).
    { unfold nextPartitionRow. rewrite Hp, Hq. cbn [_curRowCounter].
      rewrite (size_t_small (_curRowCounter s + 1)) by lia.
      destruct (Z.eqb_spec (_curRowCounter s + 1) (getNumRows p)); [lia|].
      unfold state_of. simpl. repeat split. }
    destruct Est as (A & B & D).
    destruct (IH (state_of (nextPartitionRow s)) p rest B A Hn) as (E & F & G);
      [lia | lia |].
    rewrite E, F, G, D. repeat split. lia.
Qed.

(** X12.  A partition without rows at the front of the queue is never
    retired by [getNextRow]: with no tagged row queued, every one of [n]
    calls (fewer than [2^64]) decodes from that partition's buffer and moves
    the row offset on, the queue stays as it was, so the rows of the
    partitions behind it are not reached, and [hasNextRow] answers
    [false]. *)
Theorem empty_front_partition_is_never_retired (schema : Schema) p
    (partitions exceptions : list Partition) (maxRows : Z) (n : nat) :
  getNumRows p = 0 ->
  Z.of_nat n < 2 ^ 64 ->
  let s := cursor_of (pull n (mkResultSet schema (p :: partitions) exceptions [] maxRows)) in
  _partitions s = p :: partitions
  /\ _curRowCounter s = Z.of_nat n
  /\ hasNextRow s = false.
Proof.
  intros Hp Hn s.
  destruct (pull_empty_front n
              (mkResultSet schema (p :: partitions) exceptions [] maxRows)
              p partitions eq_refl eq_refl Hp) as (A & B & D);
    [simpl; lia | simpl; lia |].
  fold s in A, B, D. simpl in D.
  split; [exact A|]. split; [exact D|].
  unfold hasNextRow. rewrite A, B, D, Hp.
  destruct (_rowsRetrieved s >=? _maxRows s); [reflexivity|].
  apply Z.ltb_ge. lia.
Qed.

End Merge.

(** * The further theorems at concrete cursors *)

Lemma merge_returns_every_row_once_witness :
  let s0 := cursor [partAB; partC] [] [(7, [Byte.x74]); (1, [Byte.x75])] (-1) in
  Forall holdsRows [partAB; partC]
  /\ _partitions (cursor_of (pull 5 s0)) = []
  /\ _pyobjects (cursor_of (pull 5 s0)) = [].
Proof.
  intros s0.
  assert (H : Forall holdsRows [partAB; partC])
    by (repeat constructor; unfold holdsRows; simpl; lia).
  split; [exact H|].
  exact (proj2 (merge_returns_every_row_once (C := OneByteRows) tt [partAB; partC] []
                  [(7, [Byte.x74]); (1, [Byte.x75])] (-1) H)).
Defined.

Lemma tagged_rows_in_queue_order_witness :
  let s := cursor [] [] [(5, [Byte.x74]); (2, [Byte.x75])] (-1) in
  _partitions s = []
  /\ rows_of (pull 3 s) = [[Byte.x74]; [Byte.x75]; []].
Proof.
  intros s. split; [reflexivity|].
  exact (tagged_rows_in_queue_order (C := OneByteRows) s 3 eq_refl).
Defined.

Lemma tagged_row_at_its_index_witness :
  let q := [(0, [Byte.x74]); (2, [Byte.x75])] in
  Forall holdsRows [partAB; partC]
  /\ ascending (C := OneByteRows) 0 q
  /\ nth_error (rows_of (pull 5 (cursor [partAB; partC] [] q (-1)))) 2
     = Some [Byte.x75].
Proof.
  intros q.
  assert (H : Forall holdsRows [partAB; partC])
    by (repeat constructor; unfold holdsRows; simpl; lia).
  assert (Hasc : ascending (C := OneByteRows) 0 q) by (simpl; lia).
  split; [exact H|]. split; [exact Hasc|].
  apply (tagged_row_at_its_index (C := OneByteRows) tt [partAB; partC] [] q (-1)
           5 1 2 [Byte.x75] H Hasc eq_refl).
  - vm_compute. discriminate.
  - lia.
Defined.

Lemma guarded_loop_stops_at_budget_witness :
  let s0 := cursor [partAB; partC] [] [(1, [Byte.x74])] 2 in
  Forall holdsRows [partAB; partC]
  /\ int64_range 2
  /\ fst (drain 10 s0) = [[Byte.x41]; [Byte.x74]].
Proof.
  intros s0.
  assert (H : Forall holdsRows [partAB; partC])
    by (repeat constructor; unfold holdsRows; simpl; lia).
  assert (Hr : int64_range 2) by (unfold int64_range; lia).
  split; [exact H|]. split; [exact Hr|].
  refine (proj1 (guarded_loop_stops_at_budget (C := OneByteRows) tt [partAB; partC] []
                   [(1, [Byte.x74])] 2 10 H Hr _)).
  vm_compute. lia.
Defined.

Lemma bulk_after_rows_counts_twice_witness :
  let s := cursor_of (pull 1 (cursor [partAB; partC] [] [] (-1))) in
  Z.of_nat 1 < getNumRows partAB
  /\ getNumRows partAB < 2 ^ 64
  /\ _rowsRetrieved (snd (getNextPartition s)) = 3.
Proof.
  intros s.
  assert (H1 : Z.of_nat 1 < getNumRows partAB) by (simpl; lia).
  assert (H2 : getNumRows partAB < 2 ^ 64) by (simpl; lia).
  split; [exact H1|]. split; [exact H2|].
  destruct (bulk_after_rows_counts_twice (C := OneByteRows) tt partAB [partC] [] (-1) 1
              H1 H2) as (_ & _ & _ & _ & _ & H).
  exact H.
Defined.

Lemma hasNextPartition_implies_hasNextRow_witness :
  let s := cursor [partAB] [] [(9, [Byte.x74])] (-1) in
  hasNextPartition s = true /\ hasNextRow s = true.
Proof.
  intros s. split; [reflexivity|].
  exact (proj1 (hasNextPartition_implies_hasNextRow (C := OneByteRows) s eq_refl)).
Defined.

Lemma exceptions_invalidated_per_clear_witness :
  let ops := [OpClear; OpGetNextRow; OpClear] in
  NoDup (map addr ([partAB; partC] ++ [partExc]))
  /\ In partExc [partExc]
  /\ invalidations (addr partExc) (snd (run ops (cursor [partAB; partC] [partExc] [] (-1))))
     = 2%nat.
Proof.
  intros ops.
  assert (H : NoDup (map addr ([partAB; partC] ++ [partExc]))).
  { simpl. repeat (constructor; [simpl; intuition discriminate|]). constructor. }
  assert (Hin : In partExc [partExc]) by (left; reflexivity).
  split; [exact H|]. split; [exact Hin|].
  exact (exceptions_invalidated_per_clear (C := OneByteRows) tt [partAB; partC] [partExc]
           [] (-1) ops partExc H Hin).
Defined.

Lemma rowCount_counts_rows_read_of_front_witness :
  let s := cursor_of (pull 1 (cursor [partAB; partC] [] [(5, [Byte.x74])] (-1))) in
  partitionsReady s
  /\ rowsIn (_partitions s) + Z.of_nat (length (_pyobjects s)) < 2 ^ 64
  /\ rowCount s = 4
  /\ length (taggedRows s) = 1%nat
  /\ length (pendingRows s) = 2%nat.
Proof.
  intros s.
  assert (Hready : partitionsReady s).
  { unfold partitionsReady. change (_partitions s) with [partAB; partC].
    change (_curRowCounter s) with 1. split.
    - constructor; [unfold holdsRows; simpl; lia|].
      constructor; [unfold holdsRows; simpl; lia | constructor].
    - simpl. lia. }
  assert (Hfit : rowsIn (_partitions s) + Z.of_nat (length (_pyobjects s)) < 2 ^ 64)
    by (simpl; lia).
  split; [exact Hready|]. split; [exact Hfit|].
  split; [|split; reflexivity].
  exact (rowCount_counts_rows_read_of_front (C := OneByteRows) s Hready Hfit).
Defined.

Lemma position_never_ahead_of_count_witness :
  let s := cursor_of (pull 3 (cursor [partAB] [] [(0, [Byte.x74]); (0, [Byte.x75])] (-1))) in
  Z.of_nat 3 < 2 ^ 64
  /\ _totalRowCounter s <= _rowsRetrieved s.
Proof.
  intros s.
  assert (H : Z.of_nat 3 < 2 ^ 64) by (simpl; lia).
  split; [exact H|].
  destruct (position_never_ahead_of_count (C := OneByteRows) tt [partAB] []
              [(0, [Byte.x74]); (0, [Byte.x75])] (-1) 3 H) as [[_ A] _].
  exact A.
Defined.

Lemma empty_front_partition_is_never_retired_witness :
  let s := cursor_of (pull 3 (cursor [partNone; partC] [] [] (-1))) in
  getNumRows partNone = 0
  /\ Z.of_nat 3 < 2 ^ 64
  /\ _partitions s = [partNone; partC].
Proof.
  intros s.
  assert (H : Z.of_nat 3 < 2 ^ 64) by (simpl; lia).
  split; [reflexivity|]. split; [exact H|].
  exact (proj1 (empty_front_partition_is_never_retired (C := OneByteRows) tt partNone
                  [partC] [] (-1) 3 eq_refl H)).
Defined.
